(** * ICS-20 transfer keeper: send, receive, acknowledgement and escrow paths

    Shallow embedding of [modules/apps/transfer/keeper/relay.go]
    ([SendTransfer], [OnRecvPacket], [OnAcknowledgementPacket],
    [HandleForwardedPacketAcknowledgement], [OnTimeoutPacket],
    [HandleForwardedPacketTimeout], [refundPacketTokens], [EscrowCoin],
    [UnescrowCoin], [TokenFromCoin], [createPacketDataBytesFromVersion]).

    The keeper's context is an explicit state [St]; a keeper method is an
    action of the monad [M], which returns either a value, a Go [error]
    (together with the state reached so far: Go does not roll back the
    writes done before an early [return err]) or a panic.  The bank, auth
    and address-codec collaborators are the fields of the class [Env]. *)

From Stdlib Require Import ZArith Ascii String.
From stdpp Require Import base gmap strings list.

Local Open Scope Z_scope.

(** ** Data model *)

Definition Addr := string.

(** [types.Hop] *)
Record Hop := NewHop { PortId : string; ChannelId : string }.

(** [types.Denom]: base denomination and trace, index 0 being the most
    recent hop. *)
Record Denom := mkDenom { Base : string; Trace : list Hop }.

(** [types.Token]: the amount is a decimal string. *)
Record Token := mkToken { token_denom : Denom; token_amount : string }.

(** [sdk.Coin] with its [math.Int] amount. *)
Record Coin := mkCoin { coin_denom : string; coin_amount : Z }.

Definition Coins := list Coin.

(** The errors the code returns; [Wrap] is [errorsmod.Wrap]/[Wrapf]. *)
Inductive Error :=
  | ErrBank (msg : string)
  | ErrSendDisabled
  | ErrReceiveDisabled
  | ErrUnauthorized
  | ErrInvalidAmount
  | ErrInvalidRequest
  | ErrInvalidVersion
  | ErrInvalidType
  | ErrInvalidAddress
  | Wrap (msg : string) (e : Error).

(** The registered error under the wrappings ([errors.Is]). *)
Fixpoint root (e : Error) : Error :=
  match e with
  | Wrap _ e' => root e'
  | _ => e
  end.

(** [types.Params] *)
Record Params := mkParams { SendEnabled : bool; ReceiveEnabled : bool }.

(** [channeltypes.Packet] (the fields the transfer keeper reads). *)
Record Packet := mkPacket {
  Sequence : nat;
  SourcePort : string;
  SourceChannel : string;
  DestinationPort : string;
  DestinationChannel : string
}.

(** [channeltypes.Acknowledgement]: the [Response] oneof; [Ack_Unset] is a
    response of any other dynamic type (including nil). *)
Inductive Acknowledgement :=
  | Acknowledgement_Result (result : list Byte.byte)
  | Acknowledgement_Error (error : string)
  | Ack_Unset.

(** [types.ForwardingPacketData]; its zero value is [ForwardingZero]. *)
Record ForwardingPacketData := NewForwardingPacketData {
  fwd_memo : string;
  fwd_hops : list Hop
}.

Definition ForwardingZero : ForwardingPacketData := NewForwardingPacketData "" [].

(** [types.FungibleTokenPacketDataV2] *)
Record FungibleTokenPacketDataV2 := NewFungibleTokenPacketDataV2 {
  Tokens : list Token;
  Sender : string;
  Receiver : string;
  Memo : string;
  Forwarding : ForwardingPacketData
}.

(** [types.FungibleTokenPacketData] (V1) *)
Record FungibleTokenPacketData := NewFungibleTokenPacketData {
  v1_denom : string;
  v1_amount : string;
  v1_sender : string;
  v1_receiver : string;
  v1_memo : string
}.

(** ** Collaborators

    The bank keeper, the auth keeper, the blocked-address policy, the
    bech32 codec, the denomination validator of the SDK, the hash used for
    IBC denominations, the escrow-address derivation and the wire
    encoders. *)
Class Env := {
  Bank : Type;
  SendCoins : Bank -> Addr -> Addr -> Coins -> Error + Bank;
  SendCoinsFromAccountToModule : Bank -> Addr -> string -> Coins -> Error + Bank;
  MintCoins : Bank -> string -> Coins -> Error + Bank;
  BurnCoins : Bank -> string -> Coins -> Error + Bank;
  IsSendEnabledCoins : Bank -> Coin -> option Error;
  HasDenomMetaData : Bank -> string -> bool;
  SetDenomMetaData : Bank -> Denom -> Bank;
  GetModuleAddress : string -> Addr;
  IsBlockedAddr : Addr -> bool;
  AccAddressFromBech32 : string -> Error + Addr;
  ValidateDenom : string -> bool;
  Sha256Hex : string -> string;
  GetEscrowAddress : string -> string -> Addr;
  GetBytesV1 : FungibleTokenPacketData -> list Byte.byte;
  GetBytesV2 : FungibleTokenPacketDataV2 -> list Byte.byte
}.

(** ** Go slices of tokens

    A slice is a header (backing array, offset, length, capacity) into a
    heap of backing arrays.  [range] evaluates its slice once: it reads
    the elements [0 .. len-1] of that header at each iteration, from the
    current heap. *)
Record Slice := mkSlice { sl_array : nat; sl_off : nat; sl_len : nat; sl_cap : nat }.

Abbreviation Heap := (gmap nat (list Token)).

Definition TokenZero : Token := mkToken (mkDenom "" []) "".

(** [s[i]] *)
Definition sliceIndex (h : Heap) (sl : Slice) (i : nat) : Token :=
  default TokenZero (default [] (h !! sl_array sl) !! (sl_off sl + i)%nat).

Definition sliceElems (h : Heap) (sl : Slice) : list Token :=
  map (sliceIndex h sl) (seq 0 (sl_len sl)).

(** What the range of [SendTransfer] relies on while [tokens] grows: the
    backing array of the ranged header [rng] stays allocated, its first
    [len(rng)] elements keep their values in [h0], and the variable [t]
    either lives in another array or extends [rng] at the same offset. *)
Definition rangeInv (h0 : Heap) (rng : Slice) (h : Heap) (t : Slice) : Prop :=
  sl_array rng ∈ dom h /\
  (forall j, (j < sl_len rng)%nat -> sliceIndex h rng j = sliceIndex h0 rng j) /\
  (sl_array t = sl_array rng -> sl_off t = sl_off rng /\ (sl_len rng <= sl_len t)%nat).

(** Capacity after growth ([runtime.growslice] doubles small slices; the
    exact policy plays no role below). *)
Definition growCap (oldCap newLen : nat) : nat := Nat.max newLen (2 * oldCap).

(** [append(s, x)]: in place when the capacity allows it, into a fresh
    backing array otherwise. *)
Definition append (h : Heap) (sl : Slice) (x : Token) : Heap * Slice :=
  if (sl_len sl <? sl_cap sl)%nat then
    let a := default [] (h !! sl_array sl) in
    (<[sl_array sl := <[(sl_off sl + sl_len sl)%nat := x]> a]> h,
     mkSlice (sl_array sl) (sl_off sl) (S (sl_len sl)) (sl_cap sl))
  else
    let c := growCap (sl_cap sl) (S (sl_len sl)) in
    let id := fresh (dom h) in
    (<[id := sliceElems h sl ++ [x] ++ replicate (c - S (sl_len sl)) TokenZero]> h,
     mkSlice id 0 (S (sl_len sl)) c).

Definition ModuleName : string := "transfer".

Section Keeper.
Context `{!Env}.

(** The keeper's view of the chain state. *)
Record St := mkSt {
  bank : Bank;
  escrow : gmap string Z;          (* total escrow, keyed by denomination *)
  denoms : gmap string Denom;      (* denom registry, keyed by hash *)
  params : Params;
  acks : list (Packet * Acknowledgement)  (* async acknowledgements written *)
}.

Definition set_bank (b : Bank) (s : St) : St :=
  mkSt b (escrow s) (denoms s) (params s) (acks s).
Definition set_escrow (m : gmap string Z) (s : St) : St :=
  mkSt (bank s) m (denoms s) (params s) (acks s).
Definition set_denoms (m : gmap string Denom) (s : St) : St :=
  mkSt (bank s) (escrow s) m (params s) (acks s).
Definition set_acks (l : list (Packet * Acknowledgement)) (s : St) : St :=
  mkSt (bank s) (escrow s) (denoms s) (params s) l.

(** ** The keeper monad *)

Inductive Res (A : Type) :=
  | Ok (a : A) (s : St)
  | Err (e : Error) (s : St)
  | Panic (msg : string).
Arguments Ok {A}. Arguments Err {A}. Arguments Panic {A}.

Definition M (A : Type) : Type := St -> Res A.

#[global] Instance M_ret : MRet M := fun A a s => Ok a s.
#[global] Instance M_bind : MBind M := fun A B k m s =>
  match m s with
  | Ok a s' => k a s'
  | Err e s' => Err e s'
  | Panic p => Panic p
  end.

Definition skip : M unit := mret tt.
Definition throw {A} (e : Error) : M A := fun s => Err e s.
Definition panic {A} (msg : string) : M A := fun _ => Panic msg.
Definition gets {A} (f : St -> A) : M A := fun s => Ok (f s) s.
Definition modify (f : St -> St) : M unit := fun s => Ok tt (f s).

(** A bank-keeper call: [if err := f(bank); err != nil { return err }]. *)
Definition bankCall (f : Bank -> Error + Bank) : M unit := fun s =>
  match f (bank s) with
  | inl e => Err e s
  | inr b => Ok tt (set_bank b s)
  end.

(** [if err := m; err != nil { return errorsmod.Wrap(err, msg) }] *)
Definition wrapErr {A} (msg : string) (m : M A) : M A := fun s =>
  match m s with
  | Err e s' => Err (Wrap msg e) s'
  | r => r
  end.

(** ** [math.Int] and [sdk.Coin] *)

(** [math.Int] holds at most [MaxBitLen] = 256 bits; arithmetic panics past it. *)
Definition IntOverflows (z : Z) : bool := 2 ^ 256 <=? Z.abs z.

Definition IntAdd (a b : Z) : M Z :=
  if IntOverflows (a + b) then panic "Int overflow" else mret (a + b).

Definition IntSub (a b : Z) : M Z :=
  if IntOverflows (a - b) then panic "Int overflow" else mret (a - b).

Definition digit_val (c : ascii) : option Z :=
  let n := nat_of_ascii c in
  if (48 <=? n)%nat && (n <=? 57)%nat then Some (Z.of_nat n - 48) else None.

Fixpoint parse_digits (s : string) (acc : Z) : option Z :=
  match s with
  | EmptyString => Some acc
  | String c r =>
      match digit_val c with
      | Some d => parse_digits r (acc * 10 + d)
      | None => None
      end
  end.

(** [big.Int.SetString(s, 10)]: an optional sign, then one or more digits. *)
Definition SetString10 (s : string) : option Z :=
  let digits (r : string) :=
    match r with EmptyString => None | _ => parse_digits r 0 end in
  match s with
  | String c r =>
      if Ascii.eqb c "-"%char then option_map Z.opp (digits r)
      else if Ascii.eqb c "+"%char then digits r
      else digits s
  | EmptyString => None
  end.

(** [math.NewIntFromString]: parse, then refuse more than 256 bits. *)
Definition NewIntFromString (s : string) : option Z :=
  match SetString10 s with
  | Some z => if IntOverflows z then None else Some z
  | None => None
  end.

(** [sdk.NewCoin]: panics on an invalid denomination or a negative amount. *)
Definition NewCoin (denom : string) (amount : Z) : M Coin :=
  if ValidateDenom denom && (0 <=? amount) then mret (mkCoin denom amount)
  else panic "invalid coin".

(** [sdk.NewCoins(coin)]: zero coins are removed, the rest validated
    (a single coin must have a valid denomination and a positive amount);
    an invalid set panics. *)
Definition NewCoins (c : Coin) : M Coins :=
  if coin_amount c =? 0 then mret []
  else if ValidateDenom (coin_denom c) && (0 <? coin_amount c) then mret [c]
  else panic "invalid coins".

(** [Coin.Add] *)
Definition CoinAdd (a b : Coin) : M Coin :=
  if String.eqb (coin_denom a) (coin_denom b) then
    r ← IntAdd (coin_amount a) (coin_amount b);
    mret (mkCoin (coin_denom a) r)
  else panic "invalid coin denoms".

(** [Coin.Sub]: [SafeSub] and a panic on its error. *)
Definition CoinSub (a b : Coin) : M Coin :=
  if String.eqb (coin_denom a) (coin_denom b) then
    r ← IntSub (coin_amount a) (coin_amount b);
    if r <? 0 then panic "negative coin amount"
    else mret (mkCoin (coin_denom a) r)
  else panic "invalid coin denoms".

(** ** Denominations *)

(** Modelled from the spec: [Denom.HasPrefix] (types/denom.go is not part
    of the sources), "a Denom has prefix (port, channel) iff its trace's
    first hop equals that (port, channel) pair". *)
Definition HasPrefix (d : Denom) (portID channelID : string) : bool :=
  match Trace d with
  | h :: _ => String.eqb (PortId h) portID && String.eqb (ChannelId h) channelID
  | [] => false
  end.

Definition HopString (h : Hop) : string := PortId h +:+ "/" +:+ ChannelId h.

Fixpoint TracePath (t : list Hop) : string :=
  match t with
  | [] => ""
  | [h] => HopString h
  | h :: t' => HopString h +:+ "/" +:+ TracePath t'
  end.

(** Modelled from the spec: [Denom.Path], "trace.Path() + "/" + base_denom". *)
Definition Path (d : Denom) : string :=
  match Trace d with
  | [] => Base d
  | t => TracePath t +:+ "/" +:+ Base d
  end.

(** Modelled from the spec: [Denom.Hash], a content hash of the canonical
    string. *)
Definition DenomHash (d : Denom) : string := Sha256Hex (Path d).

(** Modelled from the spec: [Denom.IBCDenom], the effective ledger
    denomination: the base for a native denomination, ["ibc/" ++ hash]
    otherwise. *)
Definition IBCDenom (d : Denom) : string :=
  match Trace d with
  | [] => Base d
  | _ => "ibc/" +:+ DenomHash d
  end.

(** [Token.ToCoin] *)
Definition ToCoin (t : Token) : M Coin :=
  match NewIntFromString (token_amount t) with
  | None => throw (Wrap "unable to parse transfer amount into math.Int" ErrInvalidAmount)
  | Some amount => NewCoin (IBCDenom (token_denom t)) amount
  end.

(** ** Escrow store *)

(** The spec's [EscrowTotal(d)]. *)
Definition EscrowTotal (s : St) (d : string) : Z := default 0 (escrow s !! d).

(** Modelled from the spec: [GetTotalEscrowForDenom], the per-denomination
    running total, zero when never set. *)
Definition GetTotalEscrowForDenom (denom : string) : M Coin :=
  gets (fun s => mkCoin denom (EscrowTotal s denom)).

(** Modelled from the spec: [SetTotalEscrowForDenom]. *)
Definition SetTotalEscrowForDenom (c : Coin) : M unit :=
  modify (fun s => set_escrow (<[coin_denom c := coin_amount c]> (escrow s)) s).

(** [EscrowCoin] (relay.go, lines 358-370) *)
Definition EscrowCoin (sender escrowAddress : Addr) (coin : Coin) : M unit :=
  coins ← NewCoins coin;
  bankCall (fun b => SendCoins b sender escrowAddress coins);;
  currentTotalEscrow ← GetTotalEscrowForDenom (coin_denom coin);
  newTotalEscrow ← CoinAdd currentTotalEscrow coin;
  SetTotalEscrowForDenom newTotalEscrow.

Definition UnescrowErrMsg : string :=
  "unable to unescrow tokens, this may be caused by a malicious counterparty module or a bug: please open an issue on counterparty module".

(** [UnescrowCoin] (relay.go, lines 374-389) *)
Definition UnescrowCoin (escrowAddress receiver : Addr) (coin : Coin) : M unit :=
  coins ← NewCoins coin;
  wrapErr UnescrowErrMsg (bankCall (fun b => SendCoins b escrowAddress receiver coins));;
  currentTotalEscrow ← GetTotalEscrowForDenom (coin_denom coin);
  newTotalEscrow ← CoinSub currentTotalEscrow coin;
  SetTotalEscrowForDenom newTotalEscrow.

(** [if err := f(bank); err != nil { panic(...) }] *)
Definition bankCallMust (msg : string) (f : Bank -> Error + Bank) : M unit := fun s =>
  match f (bank s) with
  | inl _ => Panic msg
  | inr b => Ok tt (set_bank b s)
  end.

(** [for _, x := range l { if err := f(x); err != nil { return err } }] *)
Fixpoint forEach {A} (f : A -> M unit) (l : list A) : M unit :=
  match l with
  | [] => mret tt
  | x :: r => f x;; forEach f r
  end.

(** ** Send path *)

(** Body of the [range tokens] loop of [SendTransfer] (relay.go, lines 68-105). *)
Definition sendTransferToken (sourcePort sourceChannel : string) (sender : Addr)
    (token : Token) : M unit :=
  coin ← ToCoin token;
  b ← gets bank;
  match IsSendEnabledCoins b coin with
  | Some _ => throw (Wrap "send disabled for coin" ErrSendDisabled)
  | None =>
      if HasPrefix (token_denom token) sourcePort sourceChannel then
        coins ← NewCoins coin;
        bankCall (fun b => SendCoinsFromAccountToModule b sender ModuleName coins);;
        coins' ← NewCoins coin;
        bankCallMust "cannot burn coins after a successful send to a module account"
          (fun b => BurnCoins b ModuleName coins')
      else
        let escrowAddress := GetEscrowAddress sourcePort sourceChannel in
        EscrowCoin sender escrowAddress coin
  end.

(** The [for _, token := range tokens] loop, [tokens = append(tokens, token)]
    included: [rng] is the header the range evaluated once, [i] the index,
    [n] the iterations left, [tokens] the variable. *)
Fixpoint sendTransferLoop (sourcePort sourceChannel : string) (sender : Addr)
    (n i : nat) (rng tokens : Slice) (h : Heap) : M unit :=
  match n with
  | O => mret tt
  | S n' =>
      let token := sliceIndex h rng i in
      sendTransferToken sourcePort sourceChannel sender token;;
      let '(h', tokens') := append h tokens token in
      sendTransferLoop sourcePort sourceChannel sender n' (S i) rng tokens' h'
  end.

(** [SendTransfer] (relay.go, lines 52-111); [h] is the memory holding the
    caller's [tokens] slice. *)
Definition SendTransfer (h : Heap) (sourcePort sourceChannel : string)
    (tokens : Slice) (sender : Addr) : M unit :=
  p ← gets params;
  if negb (SendEnabled p) then throw ErrSendDisabled else
  if IsBlockedAddr sender then
    throw (Wrap "is not allowed to send funds" ErrUnauthorized) else
  sendTransferLoop sourcePort sourceChannel sender (sl_len tokens) 0 tokens tokens h.

(** The loop as the spec describes it: every token of the list received,
    once, in order. *)
Definition SendTransferEachOnce (sourcePort sourceChannel : string)
    (tokens : list Token) (sender : Addr) : M unit :=
  p ← gets params;
  if negb (SendEnabled p) then throw ErrSendDisabled else
  if IsBlockedAddr sender then
    throw (Wrap "is not allowed to send funds" ErrUnauthorized) else
  forEach (sendTransferToken sourcePort sourceChannel sender) tokens.

(** ** Receive path *)

(** Modelled from the spec: token validation inside [ValidateBasic]
    (types/token.go is not part of the sources): "amount parses to a
    non-negative integer; zero-amount tokens are rejected by validation". *)
Definition ValidateAmount (amount : string) : option Error :=
  match NewIntFromString amount with
  | None => Some (Wrap "unable to parse transfer amount" ErrInvalidAmount)
  | Some a => if 0 <? a then None else Some (Wrap "amount must be strictly positive" ErrInvalidAmount)
  end.

Fixpoint firstError {A} (f : A -> option Error) (l : list A) : option Error :=
  match l with
  | [] => None
  | x :: r => match f x with Some e => Some e | None => firstError f r end
  end.

(** Modelled from the spec: [FungibleTokenPacketDataV2.ValidateBasic],
    the structural validation of the payload, of which the spec names the
    token checks. *)
Definition ValidateBasicV2 (d : FungibleTokenPacketDataV2) : option Error :=
  firstError (fun t => ValidateAmount (token_amount t)) (Tokens d).

(** Modelled from the spec: [FungibleTokenPacketData.ValidateBasic] (V1). *)
Definition ValidateBasicV1 (d : FungibleTokenPacketData) : option Error :=
  ValidateAmount (v1_amount d).

Definition HasForwarding (d : FungibleTokenPacketDataV2) : bool :=
  negb (length (fwd_hops (Forwarding d)) =? 0)%nat.

(** Modelled from the spec: [getReceiverFromPacketData], "the resolved
    receiver address": the module account holds the value of a packet
    that is forwarded onward, the decoded receiver otherwise. *)
Definition getReceiverFromPacketData (d : FungibleTokenPacketDataV2) : M Addr :=
  if HasForwarding d then mret (GetModuleAddress ModuleName)
  else match AccAddressFromBech32 (Receiver d) with
       | inl _ => throw (Wrap "failed to decode receiver address" ErrInvalidAddress)
       | inr a => mret a
       end.

(** Modelled from the spec: the denom registry "maps hash → full Denom". *)
Definition HasDenom (hash : string) : M bool :=
  gets (fun s => bool_decide (is_Some (denoms s !! hash))).

Definition SetDenom (d : Denom) : M unit :=
  modify (fun s => set_denoms (<[DenomHash d := d]> (denoms s)) s).

(** [Keeper.SetDenomMetadata]: registers the denomination's metadata with
    the bank. *)
Definition SetDenomMetadata (d : Denom) : M unit :=
  modify (fun s => set_bank (SetDenomMetaData (bank s) d) s).

(** Body of the [range data.Tokens] loop of [OnRecvPacket] (relay.go,
    lines 149-214); it returns the coin appended to [receivedCoins].  The
    denom event is emitted to the event sink, outside the ledger. *)
Definition recvToken (sourcePort sourceChannel destPort destChannel : string)
    (receiver : Addr) (token : Token) : M Coin :=
  match NewIntFromString (token_amount token) with
  | None => throw (Wrap "unable to parse transfer amount" ErrInvalidAmount)
  | Some transferAmount =>
      let d := token_denom token in
      if HasPrefix d sourcePort sourceChannel then
        (* remove prefix added by sender chain: Trace[1:] *)
        let d' := mkDenom (Base d) (tail (Trace d)) in
        coin ← NewCoin (IBCDenom d') transferAmount;
        let escrowAddress := GetEscrowAddress destPort destChannel in
        UnescrowCoin escrowAddress receiver coin;;
        mret coin
      else
        let d' := mkDenom (Base d) (NewHop destPort destChannel :: Trace d) in
        found ← HasDenom (DenomHash d');
        (if (found : bool) then skip else SetDenom d');;
        let voucherDenom := IBCDenom d' in
        b ← gets bank;
        (if HasDenomMetaData b voucherDenom then skip else SetDenomMetadata d');;
        voucher ← NewCoin voucherDenom transferAmount;
        coins ← NewCoins voucher;
        wrapErr "failed to mint IBC tokens"
          (bankCall (fun b => MintCoins b ModuleName coins));;
        let moduleAddr := GetModuleAddress ModuleName in
        coins' ← NewCoins voucher;
        wrapErr "failed to send coins to receiver"
          (bankCall (fun b => SendCoins b moduleAddr receiver coins'));;
        mret voucher
  end.

Fixpoint recvLoop (sourcePort sourceChannel destPort destChannel : string)
    (receiver : Addr) (tokens : list Token) (receivedCoins : Coins) : M Coins :=
  match tokens with
  | [] => mret receivedCoins
  | token :: rest =>
      coin ← recvToken sourcePort sourceChannel destPort destChannel receiver token;
      recvLoop sourcePort sourceChannel destPort destChannel receiver rest
        (receivedCoins ++ [coin])
  end.

(** [OnRecvPacket] (relay.go, lines 122-219) *)
Definition OnRecvPacket (data : FungibleTokenPacketDataV2)
    (sourcePort sourceChannel destPort destChannel : string) : M Coins :=
  match ValidateBasicV2 data with
  | Some err => throw (Wrap "error validating ICS-20 transfer packet data" err)
  | None =>
      p ← gets params;
      if negb (ReceiveEnabled p) then throw ErrReceiveDisabled else
      receiver ← getReceiverFromPacketData data;
      if IsBlockedAddr receiver then
        throw (Wrap "is not allowed to receive funds" ErrUnauthorized) else
      recvLoop sourcePort sourceChannel destPort destChannel receiver (Tokens data) []
  end.

(** ** Acknowledgements and timeouts *)

(** Body of the [range data.Tokens] loop of [refundPacketTokens] (relay.go,
    lines 327-351). *)
Definition refundToken (sourcePort sourceChannel : string)
    (sender escrowAddress moduleAccountAddr : Addr) (token : Token) : M unit :=
  coin ← ToCoin token;
  if HasPrefix (token_denom token) sourcePort sourceChannel then
    coins ← NewCoins coin;
    bankCall (fun b => MintCoins b ModuleName coins);;
    coins' ← NewCoins coin;
    bankCallMust "unable to send coins from module to account despite previously minting coins to module account"
      (fun b => SendCoins b moduleAccountAddr sender coins')
  else
    UnescrowCoin escrowAddress sender coin.

(** [refundPacketTokens] (relay.go, lines 307-354) *)
Definition refundPacketTokens (sourcePort sourceChannel : string)
    (data : FungibleTokenPacketDataV2) : M unit :=
  match AccAddressFromBech32 (Sender data) with
  | inl err => throw err
  | inr sender =>
      if IsBlockedAddr sender then
        throw (Wrap "is not allowed to receive funds" ErrUnauthorized) else
      let escrowAddress := GetEscrowAddress sourcePort sourceChannel in
      let moduleAccountAddr := GetModuleAddress ModuleName in
      forEach (refundToken sourcePort sourceChannel sender escrowAddress moduleAccountAddr)
        (Tokens data)
  end.

Definition InvalidAckTypeMsg : string :=
  "expected one of [Acknowledgement_Result, Acknowledgement_Error]".

(** [OnAcknowledgementPacket] (relay.go, lines 226-246) *)
Definition OnAcknowledgementPacket (sourcePort sourceChannel : string)
    (data : FungibleTokenPacketDataV2) (ack : Acknowledgement) : M unit :=
  match ack with
  | Acknowledgement_Result _ => mret tt
  | Acknowledgement_Error _ =>
      refundPacketTokens sourcePort sourceChannel data;;
      mret tt
  | Ack_Unset => throw (Wrap InvalidAckTypeMsg ErrInvalidType)
  end.

(** [OnTimeoutPacket] (relay.go, lines 283-290) *)
Definition OnTimeoutPacket (sourcePort sourceChannel : string)
    (data : FungibleTokenPacketDataV2) : M unit :=
  refundPacketTokens sourcePort sourceChannel data.

(** ** Forwarded packets *)

(** Modelled from the spec: the per-token step of [revertForwardedPacket]
    (forwarding.go is not part of the sources), "the exact algebraic
    inverse of Receive Path step 3, keyed by which branch (mint vs.
    unescrow) was originally taken".  [forwardedPacket] is the inbound
    packet that was received and forwarded, [token] a token of the payload
    sent on, in this chain's denomination: a token minted on receipt
    carries the hop [(destPort, destChannel)] of the inbound packet in
    front of its trace and is burnt back; any other token was unescrowed
    from the escrow account of that channel and is escrowed there again.
    The branch is re-derived with the has-prefix test, as the spec's design
    notes assume; the received value is held by the module account. *)
Definition revertToken (forwardedPacket : Packet) (token : Token) : M unit :=
  let moduleAddr := GetModuleAddress ModuleName in
  let escrowAddress :=
    GetEscrowAddress (DestinationPort forwardedPacket) (DestinationChannel forwardedPacket) in
  coin ← ToCoin token;
  if HasPrefix (token_denom token) (DestinationPort forwardedPacket)
       (DestinationChannel forwardedPacket)
  then coins ← NewCoins coin;
       bankCall (fun b => BurnCoins b ModuleName coins)
  else EscrowCoin moduleAddr escrowAddress coin.

(** Modelled from the spec: [revertForwardedPacket], the step above for
    every token of [data], the payload of the packet sent on. *)
Definition revertForwardedPacket (forwardedPacket : Packet)
    (data : FungibleTokenPacketDataV2) : M unit :=
  forEach (revertToken forwardedPacket) (Tokens data).

(** The denomination the receive step gives a token arriving on
    [forwardedPacket]: the leading hop dropped (prefix) or the destination
    hop prepended (no prefix). *)
Definition receivedDenom (forwardedPacket : Packet) (t : Token) : Denom :=
  let dn := token_denom t in
  if HasPrefix dn (SourcePort forwardedPacket) (SourceChannel forwardedPacket)
  then mkDenom (Base dn) (tail (Trace dn))
  else mkDenom (Base dn) (NewHop (DestinationPort forwardedPacket)
                                 (DestinationChannel forwardedPacket) :: Trace dn).

(** [u], a token of the payload sent on, carries the value received as the
    inbound token [t]: its denomination after receipt, the same amount. *)
Definition forwardedToken (forwardedPacket : Packet) (t u : Token) : Prop :=
  token_denom u = receivedDenom forwardedPacket t /\
  NewIntFromString (token_amount u) = NewIntFromString (token_amount t).

(** The condition under which re-deriving the branch is safe (the spec's
    open question): an unescrowed token's shortened denomination does not
    itself start with the inbound destination hop. *)
Definition revertBranchSound (forwardedPacket : Packet) (t : Token) : Prop :=
  HasPrefix (token_denom t) (SourcePort forwardedPacket) (SourceChannel forwardedPacket) = true ->
  HasPrefix (mkDenom (Base (token_denom t)) (tail (Trace (token_denom t))))
    (DestinationPort forwardedPacket) (DestinationChannel forwardedPacket) = false.

(** Modelled from the spec: [acknowledgeForwardedPacket] hands the
    acknowledgement of the original inbound packet to the relay layer's
    [WriteAsyncAcknowledgement(packet, ack)]. *)
Definition acknowledgeForwardedPacket (forwardedPacket packet : Packet)
    (ack : Acknowledgement) : M unit :=
  modify (fun s => set_acks (acks s ++ [(forwardedPacket, ack)]) s).

Definition ackErrorString (ack : Acknowledgement) : string :=
  match ack with Acknowledgement_Error e => e | _ => "" end.

(** Modelled from the spec: the synthetic error acknowledgement, "embedding
    the original packet's identity and the upstream failure". *)
Definition NewForwardErrorAcknowledgement (packet : Packet) (ack : Acknowledgement)
    : Acknowledgement :=
  Acknowledgement_Error ("forwarding packet failed on " +:+ SourcePort packet +:+ "/"
                         +:+ SourceChannel packet +:+ ": " +:+ ackErrorString ack).

(** Modelled from the spec: the synthetic timeout acknowledgement. *)
Definition NewForwardTimeoutAcknowledgement (packet : Packet) : Acknowledgement :=
  Acknowledgement_Error ("forwarding packet timed out on " +:+ SourcePort packet +:+ "/"
                         +:+ SourceChannel packet).

(** [channeltypes.NewResultAcknowledgement([]byte{byte(1)})] *)
Definition TrivialResultAck : Acknowledgement := Acknowledgement_Result [Byte.x01].

(** [HandleForwardedPacketAcknowledgement] (relay.go, lines 253-280) *)
Definition HandleForwardedPacketAcknowledgement (packet forwardedPacket : Packet)
    (data : FungibleTokenPacketDataV2) (ack : Acknowledgement) : M unit :=
  forwardAck ← (match ack with
    | Acknowledgement_Result _ => mret TrivialResultAck
    | Acknowledgement_Error _ =>
        revertForwardedPacket forwardedPacket data;;
        mret (NewForwardErrorAcknowledgement packet ack)
    | Ack_Unset => throw (Wrap InvalidAckTypeMsg ErrInvalidType)
    end : M Acknowledgement);
  acknowledgeForwardedPacket forwardedPacket packet forwardAck.

(** [HandleForwardedPacketTimeout] (relay.go, lines 294-301) *)
Definition HandleForwardedPacketTimeout (packet forwardedPacket : Packet)
    (data : FungibleTokenPacketDataV2) : M unit :=
  revertForwardedPacket forwardedPacket data;;
  let forwardAck := NewForwardTimeoutAcknowledgement packet in
  acknowledgeForwardedPacket forwardedPacket packet forwardAck.

(** ** Escrow operation sequences *)

Inductive EscrowOp :=
  | OpEscrowCoin (sender escrowAddress : Addr) (coin : Coin)
  | OpUnescrowCoin (escrowAddress receiver : Addr) (coin : Coin).

Definition runOp (o : EscrowOp) : M unit :=
  match o with
  | OpEscrowCoin sender escrowAddress coin => EscrowCoin sender escrowAddress coin
  | OpUnescrowCoin escrowAddress receiver coin => UnescrowCoin escrowAddress receiver coin
  end.

(** An action that leaves the written acknowledgements alone. *)
Definition keepsAcks {A} (m : M A) : Prop :=
  forall s, match m s with
            | Ok _ s' | Err _ s' => acks s' = acks s
            | Panic _ => True
            end.

Definition runOps (ops : list EscrowOp) : M unit := forEach runOp ops.

(** The sums of the spec's conservation law: amounts escrowed, and
    unescrowed, in denomination [d] by a sequence of operations. *)
Fixpoint escrowedIn (d : string) (ops : list EscrowOp) : Z :=
  match ops with
  | [] => 0
  | OpEscrowCoin _ _ c :: r =>
      (if String.eqb d (coin_denom c) then coin_amount c else 0) + escrowedIn d r
  | OpUnescrowCoin _ _ _ :: r => escrowedIn d r
  end.

Fixpoint unescrowedIn (d : string) (ops : list EscrowOp) : Z :=
  match ops with
  | [] => 0
  | OpEscrowCoin _ _ _ :: r => unescrowedIn d r
  | OpUnescrowCoin _ _ c :: r =>
      (if String.eqb d (coin_denom c) then coin_amount c else 0) + unescrowedIn d r
  end.

End Keeper.

Arguments Ok {_ _} a s.
Arguments Err {_ _} e s.
Arguments Panic {_ _} msg.

(** ** Outbound packet data *)

Definition V1 : string := "ics20-1".
Definition V2 : string := "ics20-2".

Section Packets.
Context `{!Env}.

(** [createPacketDataBytesFromVersion] (relay.go, lines 421-455): the Go
    pair ([]byte, error), [None] being the nil slice or the nil error. *)
Definition createPacketDataBytesFromVersion (appVersion sender receiver memo : string)
    (tokens : list Token) (hops : list Hop) : option (list Byte.byte) * option Error :=
  if String.eqb appVersion V1 then
    if negb (length tokens =? 1)%nat then
      (None, Some (Wrap "cannot transfer multiple coins with ics20-1" ErrInvalidRequest))
    else
      let token := default TokenZero (tokens !! 0%nat) in
      let packetData := NewFungibleTokenPacketData (Path (token_denom token))
                          (token_amount token) sender receiver memo in
      match ValidateBasicV1 packetData with
      | Some err => (None, Some (Wrap "failed to validate ics20-1 packet data" err))
      | None => (Some (GetBytesV1 packetData), None)
      end
  else if String.eqb appVersion V2 then
    let '(forwardingPacketData, memo') :=
      if (0 <? length hops)%nat then (NewForwardingPacketData memo hops, "")
      else (ForwardingZero, memo) in
    let packetData := NewFungibleTokenPacketDataV2 tokens sender receiver memo'
                        forwardingPacketData in
    match ValidateBasicV2 packetData with
    | Some err => (None, Some (Wrap "failed to validate ics20-2 packet data" err))
    | None => (Some (GetBytesV2 packetData), None)
    end
  else (None, Some (Wrap "app version must be one of ics20-1, ics20-2" ErrInvalidVersion)).

End Packets.

(** ** Coins back to tokens *)

(** [math.Int.String]: the decimal digits of [n >= 0], most significant
    first, pushed in front of [acc]; [fuel] bounds the number of digits. *)
Fixpoint decDigits (fuel : nat) (n : Z) (acc : string) : string :=
  match fuel with
  | O => acc
  | S f =>
      let acc' := String (ascii_of_nat (48 + Z.to_nat (n mod 10))) acc in
      if n <? 10 then acc' else decDigits f (n / 10) acc'
  end.

Definition IntString (z : Z) : string :=
  let digits (n : Z) := decDigits (S (Z.to_nat (Z.log2 n))) n EmptyString in
  if z <? 0 then String "-" (digits (- z)) else digits z.

(** [types.NewDenom(base)]: no trace. *)
Definition NewDenom (base : string) : Denom := mkDenom base [].

(** The errors [TokenFromCoin] wraps: [types.ErrInvalidDenomForTransfer] and
    [types.ErrDenomNotFound]. *)
Inductive TokenFromCoinError :=
  | ErrInvalidDenomForTransfer (msg : string)
  | ErrDenomNotFound (hexHash : string).

Section TokenFromCoin.
Context `{!Env}.
(** [types.ParseHexHash] (types/ is not part of the sources): decodes the
    hex string to the hash the denom registry is keyed by, or fails with
    a message. *)
Variable ParseHexHash : string -> string + string.

(** [Keeper.TokenFromCoin] (relay.go, lines 392-419); it reads the denom
    registry ([k.GetDenom]) and nothing else of the state. *)
Definition TokenFromCoin (registry : gmap string Denom) (coin : Coin)
    : TokenFromCoinError + Token :=
  let d := coin_denom coin in
  if negb (String.prefix "ibc/" d) then
    inr (mkToken (NewDenom d) (IntString (coin_amount coin)))
  else
    let hexHash := substring 4 (String.length d - 4) d in
    match ParseHexHash hexHash with
    | inl err => inl (ErrInvalidDenomForTransfer err)
    | inr hash =>
        match registry !! hash with
        | None => inl (ErrDenomNotFound hexHash)
        | Some denom => inr (mkToken denom (IntString (coin_amount coin)))
        end
    end.

End TokenFromCoin.

(** ** State invariants and ledger accounting *)

Section Accounting.
Context `{!Env}.

(** Every registry entry is stored under its own hash and carries a
    trace (it was registered by the mint branch of [OnRecvPacket]). *)
Definition registry_consistent (m : gmap string Denom) : Prop :=
  forall k d, m !! k = Some d -> k = DenomHash d /\ Trace d <> [].

Definition registryOk (s : St) : Prop := registry_consistent (denoms s).

(** No escrow total is negative. *)
Definition escrowNonNeg (s : St) : Prop := forall d, 0 <= EscrowTotal s d.

(** [m] keeps [P]: the state it returns, also with an error, satisfies
    [P] when the state it started from does. *)
Definition preserves {A} (P : St -> Prop) (m : M A) : Prop :=
  forall s, P s ->
  match m s with
  | Ok _ s' | Err _ s' => P s'
  | Panic _ => True
  end.

(** [m] leaves the part [f] of the state alone, also when it fails. *)
Definition keeps {A B} (f : St -> B) (m : M A) : Prop :=
  forall s, match m s with
            | Ok _ s' | Err _ s' => f s' = f s
            | Panic _ => True
            end.

(** [m] only reads the state. *)
Definition readOnly {A} (m : M A) : Prop :=
  forall s, match m s with
            | Ok _ s' | Err _ s' => s' = s
            | Panic _ => True
            end.

(** The escrow total of [d] a token adds when sent on
    [(sourcePort, sourceChannel)] and removes when refunded: its amount
    when it is escrowed (no prefix) in denomination [d]. *)
Definition tokenEscrowDelta (sourcePort sourceChannel : string) (t : Token) (d : string) : Z :=
  if HasPrefix (token_denom t) sourcePort sourceChannel then 0
  else if String.eqb d (IBCDenom (token_denom t))
       then default 0 (NewIntFromString (token_amount t)) else 0.

Definition sumZ {A} (f : A -> Z) (l : list A) : Z := foldr (fun x acc => f x + acc) 0 l.

Definition escrowDelta (sourcePort sourceChannel : string) (tokens : list Token) (d : string) : Z :=
  sumZ (fun t => tokenEscrowDelta sourcePort sourceChannel t d) tokens.

(** The escrow total of [d] a received token removes: its amount when it is
    unescrowed (prefix) and its shortened denom is [d]. *)
Definition tokenUnescrowDelta (sourcePort sourceChannel : string) (t : Token) (d : string) : Z :=
  let dn := token_denom t in
  if HasPrefix dn sourcePort sourceChannel then
    if String.eqb d (IBCDenom (mkDenom (Base dn) (tail (Trace dn))))
    then default 0 (NewIntFromString (token_amount t)) else 0
  else 0.

Definition unescrowDelta (sourcePort sourceChannel : string) (tokens : list Token) (d : string) : Z :=
  sumZ (fun t => tokenUnescrowDelta sourcePort sourceChannel t d) tokens.

(** The coin [OnRecvPacket] credits for a token: the amount parsed, in the
    denomination with the leading hop dropped (prefix) or with
    [(destPort, destChannel)] prepended (no prefix). *)
Definition recvCoin (sourcePort sourceChannel destPort destChannel : string) (t : Token) : Coin :=
  let dn := token_denom t in
  let local :=
    if HasPrefix dn sourcePort sourceChannel then mkDenom (Base dn) (tail (Trace dn))
    else mkDenom (Base dn) (NewHop destPort destChannel :: Trace dn) in
  mkCoin (IBCDenom local) (default 0 (NewIntFromString (token_amount t))).

(** The denomination [OnRecvPacket] mints a received token without the
    prefix in: [(destPort, destChannel)] prepended to its trace. *)
Definition voucherDenom (destPort destChannel : string) (t : Token) : Denom :=
  mkDenom (Base (token_denom t)) (NewHop destPort destChannel :: Trace (token_denom t)).

End Accounting.

(** ** Proof tactics *)

Ltac unfold_M :=
  unfold skip, mbind, M_bind, mret, M_ret, throw, panic, gets, modify,
    bankCall, bankCallMust, wrapErr in *.

Ltac zbool :=
  repeat match goal with
  | H : (_ =? _)%Z = true |- _ => apply Z.eqb_eq in H
  | H : (_ =? _)%Z = false |- _ => apply Z.eqb_neq in H
  | H : (_ <? _)%Z = true |- _ => apply Z.ltb_lt in H
  | H : (_ <? _)%Z = false |- _ => apply Z.ltb_ge in H
  | H : (_ <=? _)%Z = true |- _ => apply Z.leb_le in H
  | H : (_ <=? _)%Z = false |- _ => apply Z.leb_gt in H
  | H : (_ && _) = true |- _ => apply andb_prop in H; destruct H
  | H : String.eqb ?x ?x = false |- _ => rewrite String.eqb_refl in H; discriminate H
  end.

(** Closes an equation between two closed computations by evaluating both
    sides in the virtual machine. *)
Ltac vm_refl := match goal with |- ?a = ?b => exact (@eq_refl _ a <: a = b) end.

(** ** A concrete environment

    Balances per (address, denomination); the bank refuses a send above
    the sender's balance; the module account is ["transfer"], the only
    blocked address is ["blocked"]. *)
Module Toy.

Abbreviation Bal := (gmap (string * string) Z).

Definition bal (b : Bal) (a d : string) : Z := default 0 (b !! (a, d)).

Definition credit (b : Bal) (a : string) (c : Coin) : Bal :=
  <[(a, coin_denom c) := bal b a (coin_denom c) + coin_amount c]> b.

Definition debit (b : Bal) (a : string) (c : Coin) : Bal :=
  <[(a, coin_denom c) := bal b a (coin_denom c) - coin_amount c]> b.

Fixpoint send (b : Bal) (from to : string) (cs : Coins) : Error + Bal :=
  match cs with
  | [] => inr b
  | c :: r =>
      if bal b from (coin_denom c) <? coin_amount c then inl (ErrBank "insufficient funds")
      else send (credit (debit b from c) to c) from to r
  end.

Definition moduleAddr : string := "transfer".

#[export] Instance env : Env := {|
  Bank := Bal;
  SendCoins := send;
  SendCoinsFromAccountToModule b a _ cs := send b a moduleAddr cs;
  MintCoins b _ cs := inr (foldl (fun b c => credit b moduleAddr c) b cs);
  BurnCoins b _ cs := send b moduleAddr "burned" cs;
  IsSendEnabledCoins _ _ := None;
  HasDenomMetaData _ _ := false;
  SetDenomMetaData b _ := b;
  GetModuleAddress _ := moduleAddr;
  IsBlockedAddr a := String.eqb a "blocked";
  AccAddressFromBech32 a := if String.eqb a "" then inl (ErrBank "empty address") else inr a;
  ValidateDenom d := negb (String.eqb d "");
  Sha256Hex p := p;
  GetEscrowAddress p c := "escrow/" +:+ p +:+ "/" +:+ c;
  GetBytesV1 _ := [Byte.x01];
  GetBytesV2 _ := [Byte.x02]
|}.

Definition st0 (b : Bal) (esc : gmap string Z) (p : Params) : St :=
  mkSt b esc ∅ p [].

Definition on : Params := mkParams true true.

(** Inputs the theorems are applied to below. *)
Definition atom : Denom := mkDenom "atom" [].

Definition tok5 : Token := mkToken atom "5".

Definition coin5 : Coin := mkCoin "atom" 5.

Definition s_alice : St := st0 {[("alice", "atom") := 10]} ∅ on.

Definition ops_escrow_unescrow : list EscrowOp :=
  [OpEscrowCoin "alice" "esc" (mkCoin "atom" 4); OpUnescrowCoin "esc" "bob" (mkCoin "atom" 3)].

Definition s_after_ops : St :=
  match runOps ops_escrow_unescrow s_alice with Ok _ s' => s' | _ => s_alice end.

Definition heap_two : Heap := {[0%nat := [tok5; tok5]]}.

Definition slice_two : Slice := mkSlice 0 0 2 2.

(** An escrow total one below the [math.Int] bound. *)
Definition s_full_total : St :=
  st0 {[("alice", "atom") := 1]} {["atom" := 2 ^ 256 - 1]} on.

(** An escrow account holding more than its tracked total (funds sent to
    it directly). *)
Definition s_untracked : St :=
  st0 {[("esc", "atom") := 5]} {["atom" := 2]} on.

Definition zero_packet : FungibleTokenPacketDataV2 :=
  NewFungibleTokenPacketDataV2 [mkToken atom "0"] "alice" "bob" "" ForwardingZero.

Definition s_recv_off : St := st0 ∅ ∅ (mkParams true false).

(** A hash decoder that refuses the empty string and reads any other
    string as itself (the toy [Sha256Hex] is the identity). *)
Definition parseHex (h : string) : string + string :=
  if String.eqb h "" then inl "empty hash" else inr h.

Definition voucher_atom : Denom := mkDenom "atom" [NewHop "transfer" "channel-1"].



Definition s_sent : St :=
  match SendTransfer heap_two "transfer" "channel-0" slice_two "alice" s_alice with
  | Ok _ s' => s'
  | _ => s_alice
  end.

Definition data_two : FungibleTokenPacketDataV2 :=
  NewFungibleTokenPacketDataV2 [tok5; tok5] "alice" "bob" "" ForwardingZero.

Definition s_refunded : St :=
  match OnTimeoutPacket "transfer" "channel-0" data_two s_sent with
  | Ok _ s' => s'
  | _ => s_sent
  end.

(** A token that came from [channel-0] and goes back to [atom]. *)
Definition back3 : Token := mkToken (mkDenom "atom" [NewHop "transfer" "channel-0"]) "3".

Definition data_recv : FungibleTokenPacketDataV2 :=
  NewFungibleTokenPacketDataV2 [tok5; back3] "alice" "bob" "" ForwardingZero.

Definition s_recv : St :=
  st0 {[("escrow/transfer/channel-1", "atom") := 3]} {["atom" := 3]} on.

Definition recv_result : Res Coins :=
  OnRecvPacket data_recv "transfer" "channel-0" "transfer" "channel-1" s_recv.

Definition cs_recvd : Coins := match recv_result with Ok cs _ => cs | _ => [] end.

Definition s_recvd : St := match recv_result with Ok _ s' => s' | _ => s_recv end.

(** An inbound packet whose receiver is the module account, as for a
    packet received to be forwarded, and the packet it is forwarded with. *)
Definition fwd_packet : Packet := mkPacket 1 "transfer" "channel-0" "transfer" "channel-1".

Definition data_fwd_in : FungibleTokenPacketDataV2 :=
  NewFungibleTokenPacketDataV2 [tok5; back3] "alice" "transfer" "" ForwardingZero.

Definition fwd_recv_result : Res Coins :=
  OnRecvPacket data_fwd_in "transfer" "channel-0" "transfer" "channel-1" s_recv.

Definition cs_fwd : Coins := match fwd_recv_result with Ok cs _ => cs | _ => [] end.

Definition s_fwd_recvd : St := match fwd_recv_result with Ok _ s' => s' | _ => s_recv end.

Definition data_fwd_out : FungibleTokenPacketDataV2 :=
  NewFungibleTokenPacketDataV2 [mkToken voucher_atom "5"; mkToken atom "3"]
    "transfer" "carol" "" ForwardingZero.

Definition s_reverted : St :=
  match revertForwardedPacket fwd_packet data_fwd_out s_fwd_recvd with
  | Ok _ s' => s'
  | _ => s_fwd_recvd
  end.

End Toy.

(** ** Evaluation on small inputs *)

Example parse_amounts :
  NewIntFromString "100" = Some 100 /\ NewIntFromString "-7" = Some (-7)
  /\ NewIntFromString "" = None /\ NewIntFromString "1a" = None
  /\ NewIntFromString "+" = None.
Proof. vm_compute. repeat split. Qed.

Example escrow_then_unescrow :
  let s := Toy.st0 {[("alice", "atom") := 10]} ∅ Toy.on in
  match (EscrowCoin "alice" "esc" (mkCoin "atom" 4);;
         UnescrowCoin "esc" "bob" (mkCoin "atom" 3)) s with
  | Ok _ s' => EscrowTotal s' "atom" = 1 /\ Toy.bal (bank s') "bob" "atom" = 3
  | _ => False
  end.
Proof. vm_compute. split; reflexivity. Qed.

(** ** Go slices *)

Lemma append_rangeInv (h0 : Heap) (rng : Slice) (h : Heap) (t : Slice) (x : Token) :
  rangeInv h0 rng h t ->
  rangeInv h0 rng (append h t x).1 (append h t x).2.
Proof.
  intros (Hdom & Hread & Halias). unfold append.
  destruct (sl_len t <? sl_cap t)%nat eqn:Hlt; simpl; split; [| split | | split].
  - rewrite dom_insert_L. set_solver.
  - intros j Hj. rewrite <- Hread by exact Hj. unfold sliceIndex.
    destruct (decide (sl_array t = sl_array rng)) as [Heq|Hne].
    + destruct (Halias Heq) as [Hoff Hlen].
      rewrite <- Heq, lookup_insert_eq. simpl.
      rewrite list_lookup_insert_ne by lia. reflexivity.
    + rewrite lookup_insert_ne by congruence. reflexivity.
  - simpl. intros Heq. destruct (Halias Heq). split; lia.
  - rewrite dom_insert_L. set_solver.
  - assert (Hfresh : fresh (dom h) <> sl_array rng).
    { intros Heq. apply (is_fresh (dom h)). rewrite Heq. exact Hdom. }
    intros j Hj. rewrite <- Hread by exact Hj. unfold sliceIndex.
    rewrite lookup_insert_ne by exact Hfresh. reflexivity.
  - simpl. intros Heq. exfalso. apply (is_fresh (dom h)). rewrite Heq. exact Hdom.
Qed.

(** ** Escrow ledger *)

Section KeeperLemmas.
Context `{!Env}.

Lemma EscrowTotal_set_escrow (m : gmap string Z) (s : St) (d : string) :
  EscrowTotal (set_escrow m s) d = default 0 (m !! d).
Proof. reflexivity. Qed.

Lemma EscrowTotal_set_bank (b : Bank) (s : St) (d : string) :
  EscrowTotal (set_bank b s) d = EscrowTotal s d.
Proof. reflexivity. Qed.

Lemma EscrowTotal_insert (s : St) (d d' : string) (z : Z) :
  default 0 (<[d' := z]> (escrow s) !! d) =
  (if String.eqb d d' then z else EscrowTotal s d).
Proof.
  unfold EscrowTotal. destruct (String.eqb_spec d d') as [->|Hne].
  - by rewrite lookup_insert_eq.
  - by rewrite lookup_insert_ne by congruence.
Qed.

Lemma EscrowCoin_Ok (sender ea : Addr) (coin : Coin) (s s' : St) :
  EscrowCoin sender ea coin s = Ok tt s' ->
  0 <= coin_amount coin /\
  forall d, EscrowTotal s' d =
            EscrowTotal s d + (if String.eqb d (coin_denom coin) then coin_amount coin else 0).
Proof.
  unfold EscrowCoin, NewCoins, GetTotalEscrowForDenom, CoinAdd, IntAdd,
    SetTotalEscrowForDenom; unfold_M.
  intros Hrun. repeat case_match; simplify_eq/=; zbool; split; try lia;
    intros d; rewrite EscrowTotal_set_escrow, EscrowTotal_insert, EscrowTotal_set_bank;
    destruct (String.eqb d (coin_denom coin)) eqn:Heq;
    try (apply String.eqb_eq in Heq; subst); lia.
Qed.

Lemma UnescrowCoin_Ok (ea receiver : Addr) (coin : Coin) (s s' : St) :
  UnescrowCoin ea receiver coin s = Ok tt s' ->
  0 <= EscrowTotal s' (coin_denom coin) /\
  forall d, EscrowTotal s' d =
            EscrowTotal s d - (if String.eqb d (coin_denom coin) then coin_amount coin else 0).
Proof.
  unfold UnescrowCoin, NewCoins, GetTotalEscrowForDenom, CoinSub, IntSub,
    SetTotalEscrowForDenom; unfold_M.
  intros Hrun. repeat case_match; simplify_eq/=; zbool; split;
    try (rewrite EscrowTotal_set_escrow, lookup_insert_eq; simpl; lia);
    intros d; rewrite EscrowTotal_set_escrow, EscrowTotal_insert, EscrowTotal_set_bank;
    destruct (String.eqb d (coin_denom coin)) eqn:Heq;
    try (apply String.eqb_eq in Heq; subst); lia.
Qed.

Lemma forEach_cons {A} (f : A -> M unit) (x : A) (r : list A) (s : St) :
  forEach f (x :: r) s =
  match f x s with
  | Ok _ s1 => forEach f r s1
  | Err e s1 => Err e s1
  | Panic p => Panic p
  end.
Proof. reflexivity. Qed.

Lemma forEach_nil {A} (f : A -> M unit) (s : St) : forEach f [] s = Ok tt s.
Proof. reflexivity. Qed.

Lemma sendTransferLoop_range (sp sc : string) (sender : Addr) (h0 : Heap) (rng : Slice) :
  forall n i h t s, (i + n)%nat = sl_len rng -> rangeInv h0 rng h t ->
  sendTransferLoop sp sc sender n i rng t h s =
  forEach (sendTransferToken sp sc sender) (map (sliceIndex h0 rng) (seq i n)) s.
Proof.
  induction n as [|n IH]; intros i h t s Hlen Hinv; [reflexivity|].
  cbn [sendTransferLoop seq map]. rewrite forEach_cons.
  assert (Hi : sliceIndex h rng i = sliceIndex h0 rng i).
  { destruct Hinv as (_ & Hread & _). apply Hread. lia. }
  unfold mbind, M_bind. rewrite Hi.
  destruct (sendTransferToken sp sc sender (sliceIndex h0 rng i) s) as [[] s1|e s1|p];
    [|reflexivity|reflexivity].
  pose proof (append_rangeInv h0 rng h t (sliceIndex h0 rng i) Hinv) as Hinv'.
  destruct (append h t (sliceIndex h0 rng i)) as [h' t'].
  apply IH; [lia|exact Hinv'].
Qed.

Lemma keepsAcks_forEach {A} (f : A -> M unit) (l : list A) :
  (forall x, keepsAcks (f x)) -> keepsAcks (forEach f l).
Proof.
  intros Hf. induction l as [|x l IH]; intros s; [reflexivity|].
  rewrite forEach_cons. specialize (Hf x s).
  destruct (f x s) as [a s1|e s1|p]; [|exact Hf|exact I].
  specialize (IH s1). destruct (forEach f l s1); congruence.
Qed.

Lemma revertForwardedPacket_keepsAcks (forwardedPacket : Packet)
    (data : FungibleTokenPacketDataV2) :
  keepsAcks (revertForwardedPacket forwardedPacket data).
Proof.
  unfold revertForwardedPacket. apply keepsAcks_forEach. intros token s.
  unfold revertToken, ToCoin, NewCoin, EscrowCoin, NewCoins, GetTotalEscrowForDenom, CoinAdd, IntAdd,
    SetTotalEscrowForDenom. unfold_M.
  repeat case_match; simplify_eq/=; reflexivity.
Qed.

End KeeperLemmas.

(** ** Invariant and accounting lemmas *)

Section AccountingLemmas.
Context `{!Env}.

Lemma preserves_ret {A} (P : St -> Prop) (a : A) : preserves P (mret a).
Proof. intros s Hs. exact Hs. Qed.

Lemma preserves_throw {A} (P : St -> Prop) (e : Error) : preserves P (throw (A:=A) e).
Proof. intros s Hs. exact Hs. Qed.

Lemma preserves_panic {A} (P : St -> Prop) (msg : string) : preserves P (panic (A:=A) msg).
Proof. intros s _. exact I. Qed.

Lemma preserves_gets {A} (P : St -> Prop) (f : St -> A) : preserves P (gets f).
Proof. intros s Hs. exact Hs. Qed.

Lemma preserves_bind {A B} (P : St -> Prop) (m : M A) (k : A -> M B) :
  preserves P m -> (forall a, preserves P (k a)) -> preserves P (mbind k m).
Proof.
  intros Hm Hk s Hs. unfold mbind, M_bind. specialize (Hm s Hs).
  destruct (m s) as [a s1|e s1|p]; [exact (Hk a s1 Hm)|exact Hm|exact I].
Qed.

Lemma preserves_wrapErr {A} (P : St -> Prop) (msg : string) (m : M A) :
  preserves P m -> preserves P (wrapErr msg m).
Proof.
  intros Hm s Hs. unfold wrapErr. specialize (Hm s Hs). destruct (m s); exact Hm.
Qed.

Lemma preserves_forEach {A} (P : St -> Prop) (f : A -> M unit) (l : list A) :
  (forall x, preserves P (f x)) -> preserves P (forEach f l).
Proof.
  intros Hf. induction l as [|x l IH]; simpl; [apply preserves_ret|].
  apply preserves_bind; [apply Hf|intros _; exact IH].
Qed.

Lemma preserves_at {A} (P : St -> Prop) (m : M A) (s : St) :
  preserves P m -> P s ->
  match m s with Ok _ s' | Err _ s' => P s' | Panic _ => True end.
Proof. intros Hm Hs. exact (Hm s Hs). Qed.

Lemma bind_modify {A} (f : St -> St) (k : unit -> M A) (s : St) :
  mbind k (modify f) s = k tt (f s).
Proof. reflexivity. Qed.

Lemma preserves_readOnly {A} (P : St -> Prop) (m : M A) : readOnly m -> preserves P m.
Proof.
  intros Hm s Hs. specialize (Hm s). destruct (m s); subst; auto.
Qed.

Lemma preserves_modify (P : St -> Prop) (f : St -> St) :
  (forall s, P s -> P (f s)) -> preserves P (modify f).
Proof. intros Hf s Hs. exact (Hf s Hs). Qed.

Lemma preserves_bankCall (P : St -> Prop) (f : Bank -> Error + Bank) :
  (forall s b, P s -> P (set_bank b s)) -> preserves P (bankCall f).
Proof.
  intros Hb s Hs. unfold bankCall. destruct (f (bank s)); [exact Hs|exact (Hb _ _ Hs)].
Qed.

Lemma preserves_bankCallMust (P : St -> Prop) (msg : string) (f : Bank -> Error + Bank) :
  (forall s b, P s -> P (set_bank b s)) -> preserves P (bankCallMust msg f).
Proof.
  intros Hb s Hs. unfold bankCallMust. destruct (f (bank s)); [exact I|exact (Hb _ _ Hs)].
Qed.

Lemma readOnly_NewCoin (denom : string) (amount : Z) : readOnly (NewCoin denom amount).
Proof. intros s. unfold NewCoin. unfold_M. destruct (_ && _); reflexivity. Qed.

Lemma readOnly_NewCoins (c : Coin) : readOnly (NewCoins c).
Proof.
  intros s. unfold NewCoins. unfold_M.
  destruct (coin_amount c =? 0); [reflexivity|]. destruct (_ && _); reflexivity.
Qed.

Lemma readOnly_ToCoin (t : Token) : readOnly (ToCoin t).
Proof.
  intros s. unfold ToCoin. destruct (NewIntFromString _); [apply readOnly_NewCoin|reflexivity].
Qed.

Lemma readOnly_HasDenom (hash : string) : readOnly (HasDenom hash).
Proof. intros s. reflexivity. Qed.

Ltac prsv :=
  repeat match goal with
  | |- preserves _ (mbind _ _) => apply preserves_bind; [|intros ?]
  | |- preserves _ (mret _) => apply preserves_ret
  | |- preserves _ skip => apply preserves_ret
  | |- preserves _ (throw _) => apply preserves_throw
  | |- preserves _ (panic _) => apply preserves_panic
  | |- preserves _ (gets _) => apply preserves_gets
  | |- preserves _ (wrapErr _ _) => apply preserves_wrapErr
  | |- preserves _ (forEach _ _) => apply preserves_forEach; intros ?
  | |- preserves _ (ToCoin _) => apply preserves_readOnly, readOnly_ToCoin
  | |- preserves _ (NewCoin _ _) => apply preserves_readOnly, readOnly_NewCoin
  | |- preserves _ (NewCoins _) => apply preserves_readOnly, readOnly_NewCoins
  | |- preserves _ (HasDenom _) => apply preserves_readOnly, readOnly_HasDenom
  | |- preserves _ (let _ := _ in _) => cbv zeta
  | |- preserves _ (match ?x with _ => _ end) => destruct x
  end.

(** A property of the state that bank and escrow updates keep is kept by
    [EscrowCoin] and [UnescrowCoin]. *)
Lemma preserves_EscrowCoin (P : St -> Prop) (sender ea : Addr) (coin : Coin) :
  (forall s b, P s -> P (set_bank b s)) -> (forall s m, P s -> P (set_escrow m s)) ->
  preserves P (EscrowCoin sender ea coin).
Proof.
  intros Hb He. unfold EscrowCoin, GetTotalEscrowForDenom, SetTotalEscrowForDenom, CoinAdd, IntAdd.
  prsv; try (apply preserves_bankCall; exact Hb).
  apply preserves_modify. intros s Hs. apply He, Hs.
Qed.

Lemma preserves_UnescrowCoin (P : St -> Prop) (ea receiver : Addr) (coin : Coin) :
  (forall s b, P s -> P (set_bank b s)) -> (forall s m, P s -> P (set_escrow m s)) ->
  preserves P (UnescrowCoin ea receiver coin).
Proof.
  intros Hb He. unfold UnescrowCoin, GetTotalEscrowForDenom, SetTotalEscrowForDenom, CoinSub, IntSub.
  prsv; try (apply preserves_bankCall; exact Hb).
  apply preserves_modify. intros s Hs. apply He, Hs.
Qed.

(** Entry points keep a property kept by bank updates and by
    [EscrowCoin] and [UnescrowCoin]. *)
Section Entry.
Variable P : St -> Prop.
Hypothesis HB : forall s b, P s -> P (set_bank b s).
Hypothesis HE : forall sender ea coin, preserves P (EscrowCoin sender ea coin).
Hypothesis HU : forall ea receiver coin, preserves P (UnescrowCoin ea receiver coin).

Lemma preserves_sendTransferToken (sp sc : string) (sender : Addr) (t : Token) :
  preserves P (sendTransferToken sp sc sender t).
Proof.
  unfold sendTransferToken. prsv; try apply HE.
  - apply preserves_bankCall, HB.
  - apply preserves_bankCallMust, HB.
Qed.

Lemma preserves_sendTransferLoop (sp sc : string) (sender : Addr) (n : nat) :
  forall i rng t h, preserves P (sendTransferLoop sp sc sender n i rng t h).
Proof.
  induction n as [|n IH]; intros i rng t h; simpl; [apply preserves_ret|].
  apply preserves_bind; [apply preserves_sendTransferToken|intros _].
  destruct (append h t (sliceIndex h rng i)). apply IH.
Qed.

Lemma preserves_SendTransfer (h : Heap) (sp sc : string) (tokens : Slice) (sender : Addr) :
  preserves P (SendTransfer h sp sc tokens sender).
Proof. unfold SendTransfer. prsv. apply preserves_sendTransferLoop. Qed.

Lemma preserves_refundPacketTokens (sp sc : string) (data : FungibleTokenPacketDataV2) :
  preserves P (refundPacketTokens sp sc data).
Proof.
  unfold refundPacketTokens, refundToken. prsv; try apply HU.
  - apply preserves_bankCall, HB.
  - apply preserves_bankCallMust, HB.
Qed.

Lemma preserves_OnAcknowledgementPacket (sp sc : string) (data : FungibleTokenPacketDataV2)
    (ack : Acknowledgement) :
  preserves P (OnAcknowledgementPacket sp sc data ack).
Proof. unfold OnAcknowledgementPacket. prsv. apply preserves_refundPacketTokens. Qed.

Lemma preserves_OnTimeoutPacket (sp sc : string) (data : FungibleTokenPacketDataV2) :
  preserves P (OnTimeoutPacket sp sc data).
Proof. apply preserves_refundPacketTokens. Qed.

Hypothesis HD : forall s d, Trace d <> [] -> denoms s !! DenomHash d = None -> P s ->
  P (set_denoms (<[DenomHash d := d]> (denoms s)) s).

Lemma preserves_recvToken (sp sc dp dc : string) (receiver : Addr) (t : Token) :
  preserves P (recvToken sp sc dp dc receiver t).
Proof.
  unfold recvToken. destruct (NewIntFromString (token_amount t)); [|prsv]. cbv zeta.
  destruct (HasPrefix _ _ _); [prsv; apply HU|].
  intros s Hs. unfold HasDenom at 1. unfold mbind at 1, M_bind at 1, gets at 1. cbv beta iota.
  destruct (bool_decide (is_Some (denoms s !! _))) eqn:Hf.
  - refine (preserves_at P _ s _ Hs). unfold SetDenomMetadata. prsv.
    + apply preserves_modify. intros s1 Hs1. apply HB, Hs1.
    + apply preserves_bankCall, HB.
    + apply preserves_bankCall, HB.
  - unfold SetDenom at 1. rewrite bind_modify.
    refine (preserves_at P _ _ _ (HD _ _ _ _ Hs)); [|discriminate|].
    + unfold SetDenomMetadata. prsv.
      * apply preserves_modify. intros s1 Hs1. apply HB, Hs1.
      * apply preserves_bankCall, HB.
      * apply preserves_bankCall, HB.
    + apply bool_decide_eq_false in Hf. destruct (denoms s !! _); [|reflexivity].
      exfalso. apply Hf. eexists; reflexivity.
Qed.

Lemma preserves_recvLoop (sp sc dp dc : string) (receiver : Addr) (l : list Token) :
  forall acc, preserves P (recvLoop sp sc dp dc receiver l acc).
Proof.
  induction l as [|t l IH]; intros acc; simpl; [apply preserves_ret|].
  apply preserves_bind; [apply preserves_recvToken|intros c; apply IH].
Qed.

Lemma preserves_OnRecvPacket (data : FungibleTokenPacketDataV2) (sp sc dp dc : string) :
  preserves P (OnRecvPacket data sp sc dp dc).
Proof.
  unfold OnRecvPacket, getReceiverFromPacketData. prsv. all: apply preserves_recvLoop.
Qed.

End Entry.

Lemma preserves_EscrowCoin_nonneg (sender ea : Addr) (coin : Coin) :
  preserves escrowNonNeg (EscrowCoin sender ea coin).
Proof.
  intros s Hs. destruct (EscrowCoin sender ea coin s) as [[] s'|e s'|p] eqn:Hrun; [|..|exact I].
  - apply EscrowCoin_Ok in Hrun as [Ha Ht]. intros d. rewrite Ht. specialize (Hs d).
    destruct (String.eqb d (coin_denom coin)); lia.
  - revert Hrun. unfold EscrowCoin, NewCoins, GetTotalEscrowForDenom, CoinAdd, IntAdd,
      SetTotalEscrowForDenom; unfold_M.
    repeat case_match; intros; simplify_eq; exact Hs.
Qed.

Lemma preserves_UnescrowCoin_nonneg (ea receiver : Addr) (coin : Coin) :
  preserves escrowNonNeg (UnescrowCoin ea receiver coin).
Proof.
  intros s Hs. destruct (UnescrowCoin ea receiver coin s) as [[] s'|e s'|p] eqn:Hrun; [|..|exact I].
  - apply UnescrowCoin_Ok in Hrun as [Hnn Ht]. intros d.
    destruct (String.eqb d (coin_denom coin)) eqn:Heq.
    + apply String.eqb_eq in Heq. subst d. exact Hnn.
    + rewrite Ht, Heq. specialize (Hs d). lia.
  - revert Hrun. unfold UnescrowCoin, NewCoins, GetTotalEscrowForDenom, CoinSub, IntSub,
      SetTotalEscrowForDenom; unfold_M.
    repeat case_match; intros; simplify_eq; exact Hs.
Qed.

End AccountingLemmas.


Section DeltaLemmas.
Context `{!Env}.

Lemma forEach_delta {A} (f : A -> M unit) (g : A -> string -> Z) :
  (forall x s s', f x s = Ok tt s' -> forall d, EscrowTotal s' d = EscrowTotal s d + g x d) ->
  forall l s s', forEach f l s = Ok tt s' ->
  forall d, EscrowTotal s' d = EscrowTotal s d + sumZ (fun x => g x d) l.
Proof.
  intros Hf l. induction l as [|x l IH]; intros s s' Hrun d.
  - injection Hrun as <-. simpl. lia.
  - rewrite forEach_cons in Hrun.
    destruct (f x s) as [[] s1|e s1|p] eqn:Hx; try discriminate.
    rewrite (IH s1 s' Hrun d), (Hf x s s1 Hx d). simpl. lia.
Qed.

Lemma sumZ_opp {A} (f : A -> Z) (l : list A) :
  sumZ (fun x => - f x) l = - sumZ f l.
Proof. induction l as [|x l IH]; simpl; [reflexivity|]. rewrite IH. lia. Qed.

Lemma ToCoin_Ok (t : Token) (s : St) (coin : Coin) (s' : St) :
  ToCoin t s = Ok coin s' ->
  s' = s /\ coin = mkCoin (IBCDenom (token_denom t)) (default 0 (NewIntFromString (token_amount t))).
Proof.
  unfold ToCoin, NewCoin. unfold_M.
  destruct (NewIntFromString (token_amount t)); [|discriminate].
  destruct (_ && _); intros Hrun; [|discriminate]. injection Hrun as <- <-. split; reflexivity.
Qed.

Lemma sendTransferToken_delta (sp sc : string) (sender : Addr) (t : Token) (s s' : St) :
  sendTransferToken sp sc sender t s = Ok tt s' ->
  forall d, EscrowTotal s' d = EscrowTotal s d + tokenEscrowDelta sp sc t d.
Proof.
  intros Hrun d. unfold sendTransferToken in Hrun. unfold mbind, M_bind in Hrun.
  destruct (ToCoin t s) as [coin s1|e s1|p] eqn:Hc; try discriminate.
  apply ToCoin_Ok in Hc as [-> ->].
  unfold gets, throw in Hrun. unfold tokenEscrowDelta.
  destruct (IsSendEnabledCoins _ _); [discriminate|].
  destruct (HasPrefix (token_denom t) sp sc).
  - revert Hrun. unfold NewCoins, bankCall, bankCallMust; unfold_M.
    repeat case_match; intros; simplify_eq; rewrite ?EscrowTotal_set_bank; lia.
  - apply EscrowCoin_Ok in Hrun as [_ Ht]. rewrite Ht. simpl. lia.
Qed.

Lemma refundToken_delta (sp sc : string) (sender ea ma : Addr) (t : Token) (s s' : St) :
  refundToken sp sc sender ea ma t s = Ok tt s' ->
  forall d, EscrowTotal s' d = EscrowTotal s d + - tokenEscrowDelta sp sc t d.
Proof.
  intros Hrun d. unfold refundToken in Hrun. unfold mbind, M_bind in Hrun.
  destruct (ToCoin t s) as [coin s1|e s1|p] eqn:Hc; try discriminate.
  apply ToCoin_Ok in Hc as [-> ->]. unfold tokenEscrowDelta.
  destruct (HasPrefix (token_denom t) sp sc).
  - revert Hrun. unfold NewCoins, bankCall, bankCallMust; unfold_M.
    repeat case_match; intros; simplify_eq; rewrite ?EscrowTotal_set_bank; lia.
  - apply UnescrowCoin_Ok in Hrun as [_ Ht]. rewrite Ht. simpl. lia.
Qed.

Lemma recvToken_Ok (sp sc dp dc : string) (receiver : Addr) (t : Token) (c : Coin) (s s' : St) :
  recvToken sp sc dp dc receiver t s = Ok c s' ->
  c = recvCoin sp sc dp dc t /\
  forall d, EscrowTotal s' d = EscrowTotal s d + - tokenUnescrowDelta sp sc t d.
Proof.
  intros Hrun. unfold recvToken in Hrun. unfold recvCoin, tokenUnescrowDelta.
  destruct (NewIntFromString (token_amount t)) as [amt|] eqn:Ha; [|discriminate]. simpl.
  destruct (HasPrefix (token_denom t) sp sc).
  - unfold mbind, M_bind, NewCoin in Hrun. unfold_M.
    destruct (_ && _); [|discriminate]. cbv beta iota in Hrun.
    destruct (UnescrowCoin _ _ _ s) as [[] s1|e s1|p] eqn:Hu; try discriminate.
    injection Hrun as <- <-. split; [reflexivity|].
    apply UnescrowCoin_Ok in Hu as [_ Ht]. intros d. rewrite Ht. simpl. lia.
  - unfold HasDenom, SetDenom, SetDenomMetadata, NewCoin, NewCoins in Hrun. unfold_M.
    repeat (first
      [ match type of Hrun with context[match ?m with inl _ => _ | inr _ => _ end] =>
          destruct m eqn:? end
      | match type of Hrun with context[if ?b then _ else _] => destruct b eqn:? end ];
      cbn [coin_amount coin_denom bank denoms set_bank set_denoms] in Hrun;
      cbv beta iota in Hrun; try discriminate).
    all: injection Hrun as <- <-; split; [reflexivity|intros d; unfold EscrowTotal; simpl; lia].
Qed.

Lemma recvLoop_Ok (sp sc dp dc : string) (receiver : Addr) (l : list Token) :
  forall acc cs s s', recvLoop sp sc dp dc receiver l acc s = Ok cs s' ->
  cs = acc ++ map (recvCoin sp sc dp dc) l /\
  forall d, EscrowTotal s' d = EscrowTotal s d + - unescrowDelta sp sc l d.
Proof.
  induction l as [|t l IH]; intros acc cs s s' Hrun.
  - injection Hrun as <- <-. split; [by rewrite app_nil_r|]. intros d. simpl. lia.
  - simpl in Hrun. unfold mbind, M_bind in Hrun.
    destruct (recvToken sp sc dp dc receiver t s) as [c s1|e s1|p] eqn:Ht; try discriminate.
    apply recvToken_Ok in Ht as [-> Hd].
    destruct (IH _ _ _ _ Hrun) as [-> Hl]. split.
    + simpl. by rewrite <- app_assoc.
    + intros d. rewrite Hl, Hd. unfold unescrowDelta. simpl. lia.
Qed.

End DeltaLemmas.


(** ** Decimal strings and [TokenFromCoin] *)

Lemma digit_char_val (k : nat) : (k < 10)%nat ->
  nat_of_ascii (ascii_of_nat (48 + k)) = (48 + k)%nat /\
  digit_val (ascii_of_nat (48 + k)) = Some (Z.of_nat k).
Proof.
  intros Hk. assert (Hn : nat_of_ascii (ascii_of_nat (48 + k)) = (48 + k)%nat)
    by (apply nat_ascii_embedding; lia).
  split; [exact Hn|]. unfold digit_val. rewrite Hn.
  replace ((48 <=? 48 + k)%nat && (48 + k <=? 57)%nat) with true
    by (symmetry; apply andb_true_iff; split; apply Nat.leb_le; lia).
  f_equal. lia.
Qed.

Lemma decDigits_parse (f : nat) : forall n acc,
  0 <= n < 10 ^ Z.of_nat f ->
  parse_digits (decDigits f n acc) 0 = parse_digits acc n.
Proof.
  induction f as [|f IH]; intros n acc Hn.
  - simpl in Hn. replace n with 0 by lia. reflexivity.
  - assert (Hm : 0 <= n mod 10 < 10) by (apply Z.mod_pos_bound; lia).
    destruct (digit_char_val (Z.to_nat (n mod 10))) as [_ Hd]; [lia|].
    rewrite Z2Nat.id in Hd by lia.
    cbn [decDigits]. destruct (n <? 10) eqn:Hlt.
    + cbn [parse_digits]. rewrite Hd. apply Z.ltb_lt in Hlt.
      rewrite Z.mod_small by lia. f_equal; lia.
    + apply Z.ltb_ge in Hlt. rewrite IH.
      * cbn [parse_digits]. rewrite Hd. f_equal.
        pose proof (Z.div_mod n 10). lia.
      * rewrite Nat2Z.inj_succ, Z.pow_succ_r in Hn by lia.
        split; [apply Z.div_pos; lia|]. apply Z.div_lt_upper_bound; lia.
Qed.

Lemma decDigits_head (f : nat) : forall n acc, (0 < f)%nat ->
  exists c r, decDigits f n acc = String c r /\ (48 <= nat_of_ascii c <= 57)%nat.
Proof.
  induction f as [|f IH]; intros n acc Hf; [lia|].
  assert (Hm : 0 <= n mod 10 < 10) by (apply Z.mod_pos_bound; lia).
  destruct (digit_char_val (Z.to_nat (n mod 10))) as [Hc _]; [lia|].
  cbn [decDigits]. destruct (n <? 10).
  - eexists _, _. split; [reflexivity|]. rewrite Hc. lia.
  - destruct f as [|f].
    + eexists _, _. split; [reflexivity|]. rewrite Hc. lia.
    + apply IH. lia.
Qed.

Lemma digits_fuel (n : Z) : 0 <= n -> n < 10 ^ Z.of_nat (S (Z.to_nat (Z.log2 n))).
Proof.
  intros Hn. rewrite Nat2Z.inj_succ, Z2Nat.id by apply Z.log2_nonneg.
  destruct (Z.eq_dec n 0) as [->|Hne]; [reflexivity|].
  destruct (Z.log2_spec n) as [_ Hlt]; [lia|].
  eapply Z.lt_le_trans; [exact Hlt|].
  apply Z.pow_le_mono_l. pose proof (Z.log2_nonneg n). lia.
Qed.

(** [Int.String] and [math.NewIntFromString] are inverse on the [math.Int]
    range. *)
Lemma IntString_parse (z : Z) :
  IntOverflows z = false -> NewIntFromString (IntString z) = Some z.
Proof.
  intros Hov. unfold NewIntFromString.
  assert (Hs : SetString10 (IntString z) = Some z).
  { unfold IntString. cbv zeta. destruct (z <? 0) eqn:Hneg.
    - apply Z.ltb_lt in Hneg.
      destruct (decDigits_head (S (Z.to_nat (Z.log2 (- z)))) (- z) EmptyString)
        as (c & r & Hcr & _); [lia|].
      pose proof (decDigits_parse (S (Z.to_nat (Z.log2 (- z)))) (- z) EmptyString) as Hp.
      rewrite Hcr in Hp |- *. unfold SetString10. cbn [Ascii.eqb].
      change (Ascii.eqb "-" "-") with true. cbv iota beta.
      rewrite Hp; [simpl; f_equal; lia|]. split; [lia|]. apply digits_fuel. lia.
    - apply Z.ltb_ge in Hneg.
      destruct (decDigits_head (S (Z.to_nat (Z.log2 z))) z EmptyString)
        as (c & r & Hcr & Hc); [lia|].
      pose proof (decDigits_parse (S (Z.to_nat (Z.log2 z))) z EmptyString) as Hp.
      rewrite Hcr in Hp |- *. unfold SetString10.
      destruct (Ascii.eqb c "-") eqn:Hm.
      { apply Ascii.eqb_eq in Hm. subst c. change (nat_of_ascii "-") with 45%nat in Hc. lia. }
      destruct (Ascii.eqb c "+") eqn:Hpl.
      { apply Ascii.eqb_eq in Hpl. subst c. change (nat_of_ascii "+") with 43%nat in Hc. lia. }
      rewrite Hp; [reflexivity|]. split; [lia|]. apply digits_fuel. exact Hneg. }
  rewrite Hs, Hov. reflexivity.
Qed.

Lemma substring_0_length (r : string) : substring 0 (String.length r) r = r.
Proof. induction r as [|c r IH]; simpl; [reflexivity|]. by rewrite IH. Qed.


Section EntryLemmas.
Context `{!Env}.

Lemma keeps_of_preserves {A B} (f : St -> B) (m : M A) :
  (forall b, preserves (fun s => f s = b) m) -> keeps f m.
Proof. intros Hp s. exact (Hp (f s) s eq_refl). Qed.

Lemma SendTransfer_Ok_delta (h : Heap) (sp sc : string) (tokens : Slice) (sender : Addr) (s s' : St) :
  sl_array tokens ∈ dom h ->
  SendTransfer h sp sc tokens sender s = Ok tt s' ->
  forall d, EscrowTotal s' d = EscrowTotal s d + escrowDelta sp sc (sliceElems h tokens) d.
Proof.
  intros Hdom Hrun. unfold SendTransfer, gets, throw in Hrun. unfold mbind, M_bind in Hrun.
  cbv beta iota in Hrun.
  destruct (negb (SendEnabled (params s))); [discriminate|].
  destruct (IsBlockedAddr sender); [discriminate|].
  rewrite (sendTransferLoop_range sp sc sender h tokens) in Hrun; [|lia|].
  - exact (forEach_delta _ _ (sendTransferToken_delta sp sc sender) _ _ _ Hrun).
  - split; [exact Hdom|split; [auto|]]. intros _. split; lia.
Qed.

Lemma refundPacketTokens_Ok_delta (sp sc : string) (data : FungibleTokenPacketDataV2) (s s' : St) :
  refundPacketTokens sp sc data s = Ok tt s' ->
  forall d, EscrowTotal s' d = EscrowTotal s d - escrowDelta sp sc (Tokens data) d.
Proof.
  intros Hrun d. unfold refundPacketTokens, throw in Hrun.
  destruct (AccAddressFromBech32 (Sender data)) as [e|sender]; [discriminate|].
  destruct (IsBlockedAddr sender); [discriminate|]. cbv zeta in Hrun.
  pose proof (forEach_delta _ _ (refundToken_delta sp sc sender _ _) _ _ _ Hrun d) as Hd.
  rewrite Hd, sumZ_opp. unfold escrowDelta. lia.
Qed.

Lemma OnRecvPacket_Ok (data : FungibleTokenPacketDataV2) (sp sc dp dc : string)
    (s : St) (cs : Coins) (s' : St) :
  OnRecvPacket data sp sc dp dc s = Ok cs s' ->
  (exists receiver, recvLoop sp sc dp dc receiver (Tokens data) [] s = Ok cs s') /\
  cs = map (recvCoin sp sc dp dc) (Tokens data) /\
  forall d, EscrowTotal s' d = EscrowTotal s d - unescrowDelta sp sc (Tokens data) d.
Proof.
  intros Hrun. unfold OnRecvPacket, getReceiverFromPacketData, gets, throw in Hrun.
  unfold mbind, M_bind, mret, M_ret in Hrun. cbv beta iota in Hrun.
  destruct (ValidateBasicV2 data); [discriminate|].
  destruct (negb (ReceiveEnabled (params s))); [discriminate|].
  destruct (HasForwarding data);
    [|destruct (AccAddressFromBech32 (Receiver data)); [discriminate|]];
    cbv beta iota in Hrun; (destruct (IsBlockedAddr _); [discriminate|]).
  all: pose proof Hrun as Hl; apply recvLoop_Ok in Hl as [-> Hd];
    split; [eexists; exact Hrun|]; split; [reflexivity|]; intros d; rewrite Hd; lia.
Qed.

Lemma IntOverflows_parsed (a : string) : IntOverflows (default 0 (NewIntFromString a)) = false.
Proof.
  unfold NewIntFromString. destruct (SetString10 a) as [z|]; [|reflexivity].
  destruct (IntOverflows z) eqn:Ho; [reflexivity|exact Ho].
Qed.

Lemma prefix_ibc_app (x : string) : String.prefix "ibc/" ("ibc/" +:+ x) = true.
Proof. destruct x; reflexivity. Qed.

Lemma substring_ibc_app (x : string) :
  substring 4 (String.length ("ibc/" +:+ x) - 4) ("ibc/" +:+ x) = x.
Proof. simpl. rewrite Nat.sub_0_r. apply substring_0_length. Qed.

(** A registry entry stored under its own hash and with a trace has
    ["ibc/" ++ key] as its ledger denomination. *)
Lemma registry_IBCDenom (reg : gmap string Denom) (k : string) (e : Denom) :
  registry_consistent reg -> reg !! k = Some e -> IBCDenom e = "ibc/" +:+ k.
Proof.
  intros Hreg Hk. destruct (Hreg _ _ Hk) as [-> Htr].
  unfold IBCDenom. destruct (Trace e); [contradiction|reflexivity].
Qed.


Lemma registry_insert (s : St) (d : Denom) :
  Trace d <> [] -> registryOk s ->
  registryOk (set_denoms (<[DenomHash d := d]> (denoms s)) s).
Proof.
  intros Htr Hs k e Hk. cbn in Hk. apply lookup_insert_Some in Hk as [[<- <-]|[_ Hk]].
  - split; [reflexivity|exact Htr].
  - exact (Hs k e Hk).
Qed.

Lemma registry_grows (m : gmap string Denom) (s : St) (d : Denom) :
  denoms s !! DenomHash d = None -> m ⊆ denoms s ->
  m ⊆ denoms (set_denoms (<[DenomHash d := d]> (denoms s)) s).
Proof. intros Hn Hm. cbn. etransitivity; [exact Hm|]. by apply insert_subseteq. Qed.

Lemma recvLoop_denoms_grow (sp sc dp dc : string) (receiver : Addr) (l : list Token)
    (acc : Coins) (m : gmap string Denom) :
  preserves (fun s => m ⊆ denoms s) (recvLoop sp sc dp dc receiver l acc).
Proof.
  apply preserves_recvLoop.
  - intros s b Hs. exact Hs.
  - intros. apply preserves_UnescrowCoin; intros s x Hs; exact Hs.
  - intros s d _ Hn Hs. exact (registry_grows m s d Hn Hs).
Qed.

Lemma recvToken_registers (sp sc dp dc : string) (receiver : Addr) (t : Token)
    (c : Coin) (s s' : St) :
  recvToken sp sc dp dc receiver t s = Ok c s' ->
  HasPrefix (token_denom t) sp sc = false ->
  is_Some (denoms s' !! DenomHash (voucherDenom dp dc t)).
Proof.
  intros Hrun Hp. unfold recvToken in Hrun.
  destruct (NewIntFromString (token_amount t)); [|discriminate]. cbv zeta in Hrun.
  rewrite Hp in Hrun.
  unfold HasDenom, SetDenom, SetDenomMetadata, NewCoin, NewCoins in Hrun. unfold_M.
  repeat (first
    [ match type of Hrun with context[match ?m with inl _ => _ | inr _ => _ end] =>
        destruct m eqn:? end
    | match type of Hrun with context[if ?b then _ else _] => destruct b eqn:? end ];
    cbn [coin_amount coin_denom bank denoms set_bank set_denoms] in Hrun;
    cbv beta iota in Hrun; try discriminate).
  all: injection Hrun as <- <-; cbn [denoms set_bank set_denoms];
    unfold voucherDenom;
    first [ by apply bool_decide_eq_true in Heqb
          | rewrite lookup_insert_eq; eexists; reflexivity ].
Qed.

Lemma recvLoop_registers (sp sc dp dc : string) (receiver : Addr) (l : list Token) :
  forall acc cs s s', recvLoop sp sc dp dc receiver l acc s = Ok cs s' ->
  forall t, t ∈ l -> HasPrefix (token_denom t) sp sc = false ->
  is_Some (denoms s' !! DenomHash (voucherDenom dp dc t)).
Proof.
  induction l as [|t0 l IH]; intros acc cs s s' Hrun t Hin Hp; [by apply elem_of_nil in Hin|].
  simpl in Hrun. unfold mbind, M_bind in Hrun.
  destruct (recvToken sp sc dp dc receiver t0 s) as [c s1|e s1|p] eqn:Ht; try discriminate.
  apply elem_of_cons in Hin as [->|Hin]; [|exact (IH _ _ _ _ Hrun t Hin Hp)].
  pose proof (recvToken_registers _ _ _ _ _ _ _ _ _ Ht Hp) as [e He].
  pose proof (recvLoop_denoms_grow sp sc dp dc receiver l (acc ++ [c]) (denoms s1) s1
                (reflexivity _)) as Hg.
  rewrite Hrun in Hg. exists e. exact (lookup_weaken _ _ _ _ He Hg).
Qed.

Lemma OnRecvPacket_registryOk (data : FungibleTokenPacketDataV2) (sp sc dp dc : string) :
  preserves registryOk (OnRecvPacket data sp sc dp dc).
Proof.
  apply preserves_OnRecvPacket.
  - intros s b Hs. exact Hs.
  - intros. apply preserves_UnescrowCoin; intros s x Hs; exact Hs.
  - intros s d Htr _ Hs. exact (registry_insert s d Htr Hs).
Qed.

End EntryLemmas.

Section RefundEntry.
Context `{!Env}.

Lemma refund_entry_Ok (sp sc : string) (data : FungibleTokenPacketDataV2) (s s' : St) :
  (OnTimeoutPacket sp sc data s = Ok tt s' \/
   exists e, OnAcknowledgementPacket sp sc data (Acknowledgement_Error e) s = Ok tt s') ->
  refundPacketTokens sp sc data s = Ok tt s'.
Proof.
  intros [Ht|[e Ha]]; [exact Ht|].
  unfold OnAcknowledgementPacket, mbind, M_bind, mret, M_ret in Ha.
  destruct (refundPacketTokens sp sc data s) as [[] s1|e1 s1|p]; congruence.
Qed.

End RefundEntry.

Ltac stable :=
  first
    [ intros ? ? ?; assumption
    | intros; apply preserves_EscrowCoin; intros ? ? ?; assumption
    | intros; apply preserves_UnescrowCoin; intros ? ? ?; assumption ].

Ltac nonneg :=
  first
    [ intros ? ? ?; assumption
    | intros ? ? _ _ ?; assumption
    | intros; apply preserves_EscrowCoin_nonneg
    | intros; apply preserves_UnescrowCoin_nonneg ].

(** ** Claims *)

Section RevertLemmas.
Context `{!Env}.

Lemma recvToken_coin (fp : Packet) (receiver : Addr) (t : Token) (c : Coin) (s s' : St) :
  recvToken (SourcePort fp) (SourceChannel fp) (DestinationPort fp) (DestinationChannel fp)
    receiver t s = Ok c s' ->
  exists a, NewIntFromString (token_amount t) = Some a /\
    (forall s1, NewCoin (IBCDenom (receivedDenom fp t)) a s1 = Ok c s1).
Proof.
  intros Hrun. unfold recvToken in Hrun. unfold receivedDenom.
  destruct (NewIntFromString (token_amount t)) as [a|]; [|discriminate].
  exists a. split; [reflexivity|]. cbv zeta in *.
  destruct (HasPrefix (token_denom t) _ _).
  - unfold mbind, M_bind, NewCoin in Hrun |- *. unfold_M.
    destruct (_ && _); [|discriminate]. cbv beta iota in Hrun.
    destruct (UnescrowCoin _ _ _ s) as [[] s1|e s1|p]; try discriminate.
    injection Hrun as <- _. intros s2. reflexivity.
  - unfold HasDenom, SetDenom, SetDenomMetadata, NewCoins in Hrun.
    unfold NewCoin in Hrun |- *. unfold_M.
    repeat (first
      [ match type of Hrun with context[match ?m with inl _ => _ | inr _ => _ end] =>
          destruct m eqn:? end
      | match type of Hrun with context[if ?b then _ else _] => destruct b eqn:? end ];
      cbn [coin_amount coin_denom bank denoms set_bank set_denoms] in Hrun;
      cbv beta iota in Hrun; try discriminate).
    all: injection Hrun as <- _; intros s2;
      try match goal with H : (_ && _) = true |- _ => rewrite H end; reflexivity.
Qed.

Lemma forwardedToken_ToCoin (fp : Packet) (receiver : Addr) (t u : Token) (c : Coin) (s0 s1 : St) :
  recvToken (SourcePort fp) (SourceChannel fp) (DestinationPort fp) (DestinationChannel fp)
    receiver t s0 = Ok c s1 ->
  forwardedToken fp t u ->
  forall s, ToCoin u s = Ok c s.
Proof.
  intros Hrun [Hd Ha] s. destruct (recvToken_coin fp receiver t c s0 s1 Hrun) as (a & Hp & Hc).
  unfold ToCoin. rewrite Ha, Hp, Hd. apply Hc.
Qed.

Lemma HasPrefix_receivedDenom (fp : Packet) (t : Token) :
  revertBranchSound fp t ->
  HasPrefix (receivedDenom fp t) (DestinationPort fp) (DestinationChannel fp) =
  negb (HasPrefix (token_denom t) (SourcePort fp) (SourceChannel fp)).
Proof.
  intros Hsound. unfold receivedDenom.
  destruct (HasPrefix (token_denom t) _ _) eqn:Hp.
  - exact (Hsound Hp).
  - unfold HasPrefix at 1. simpl. by rewrite !String.eqb_refl.
Qed.

Lemma revertToken_delta (fp : Packet) (t u : Token) (s s' : St) :
  forwardedToken fp t u -> revertBranchSound fp t ->
  revertToken fp u s = Ok tt s' ->
  forall d, EscrowTotal s' d = EscrowTotal s d + tokenUnescrowDelta (SourcePort fp) (SourceChannel fp) t d.
Proof.
  intros [Hd Ha] Hsound Hrun d. unfold revertToken in Hrun. unfold mbind, M_bind in Hrun.
  destruct (ToCoin u s) as [coin s1|e s1|p] eqn:Hc; try discriminate.
  apply ToCoin_Ok in Hc as [-> ->]. cbv zeta in Hrun.
  rewrite Hd, (HasPrefix_receivedDenom fp t Hsound) in Hrun. rewrite Ha in Hrun.
  unfold tokenUnescrowDelta, receivedDenom. unfold receivedDenom in Hrun.
  destruct (HasPrefix (token_denom t) (SourcePort fp) (SourceChannel fp)); simpl negb in Hrun.
  - apply EscrowCoin_Ok in Hrun as [_ Ht]. rewrite Ht. simpl. lia.
  - revert Hrun. unfold NewCoins, bankCall; unfold_M.
    repeat case_match; intros; simplify_eq; rewrite ?EscrowTotal_set_bank; lia.
Qed.

Lemma revertForwardedPacket_delta (fp : Packet) (data : FungibleTokenPacketDataV2)
    (inbound : list Token) :
  Forall2 (forwardedToken fp) inbound (Tokens data) ->
  Forall (revertBranchSound fp) inbound ->
  forall s s', revertForwardedPacket fp data s = Ok tt s' ->
  forall d, EscrowTotal s' d =
            EscrowTotal s d + unescrowDelta (SourcePort fp) (SourceChannel fp) inbound d.
Proof.
  unfold revertForwardedPacket. generalize (Tokens data) as us. intros us Hrel.
  induction Hrel as [|t u ts us Htu Hrel IH]; intros Hsound s s' Hrun d.
  - injection Hrun as <-. simpl. lia.
  - apply Forall_cons in Hsound as [Ht Hts]. rewrite forEach_cons in Hrun.
    destruct (revertToken fp u s) as [[] s1|e s1|p] eqn:Hu; try discriminate.
    rewrite (IH Hts s1 s' Hrun d), (revertToken_delta fp t u s s1 Htu Ht Hu d).
    unfold unescrowDelta. simpl. lia.
Qed.

End RevertLemmas.

Section Claims.
Context `{!Env}.

(** C1: for every denomination [d], a sequence of successful [EscrowCoin]
    and [UnescrowCoin] calls started where [EscrowTotal(d)] is not negative
    (in particular at 0) ends with [EscrowTotal(d)] equal to its start value
    plus the amounts escrowed in [d] minus the amounts unescrowed in [d],
    and [EscrowTotal(d)] is not negative after the sequence nor after any
    prefix of it. *)
Theorem escrow_total_conservation (ops : list EscrowOp) (s s' : St) (d : string) :
  0 <= EscrowTotal s d ->
  runOps ops s = Ok tt s' ->
  EscrowTotal s' d = EscrowTotal s d + escrowedIn d ops - unescrowedIn d ops /\
  0 <= EscrowTotal s' d /\
  forall k, exists sk, runOps (take k ops) s = Ok tt sk /\ 0 <= EscrowTotal sk d.
Proof.
  unfold runOps. revert s.
  induction ops as [|o ops IH]; intros s Hpos Hrun.
  - rewrite forEach_nil in Hrun. injection Hrun as <-. simpl. split; [lia|split; [lia|]].
    intros k. exists s. rewrite take_nil. split; [reflexivity|lia].
  - rewrite forEach_cons in Hrun.
    destruct (runOp o s) as [[] s1|e s1|p] eqn:Ho; try discriminate.
    assert (Hstep : 0 <= EscrowTotal s1 d /\
      EscrowTotal s1 d = EscrowTotal s d + escrowedIn d [o] - unescrowedIn d [o]).
    { destruct o as [snd ea c|ea rcv c]; simpl in Ho |- *.
      - apply EscrowCoin_Ok in Ho as [Ha Ht]. rewrite Ht.
        destruct (String.eqb d (coin_denom c)); lia.
      - apply UnescrowCoin_Ok in Ho as [Hnn Ht].
        destruct (String.eqb d (coin_denom c)) eqn:Heq.
        + apply String.eqb_eq in Heq; subst. split; [exact Hnn|]. rewrite Ht, String.eqb_refl. lia.
        + rewrite Ht, Heq. lia. }
    destruct Hstep as [Hs1 Heq1].
    destruct (IH s1 Hs1 Hrun) as (Htot & Hnn & Hpref).
    split; [|split; [exact Hnn|]].
    + rewrite Htot, Heq1. destruct o; simpl; lia.
    + intros [|k].
      * exists s. split; [reflexivity|exact Hpos].
      * destruct (Hpref k) as (sk & Hk & Hsk). exists sk. split; [|exact Hsk].
        change (take (S k) (o :: ops)) with (o :: take k ops).
        rewrite forEach_cons, Ho. exact Hk.
Qed.

(** C10: for every input token slice, [SendTransfer] processes each element
    of the slice it received exactly once and in order, although it appends
    every processed token to the ranged variable [tokens]: the range reads
    the header evaluated once, the appended copies are never processed, and
    the whole call (gates, ledger effects, errors and panics) equals running
    the per-token body once over the original list. *)
Theorem send_transfer_each_token_once (h : Heap) (sourcePort sourceChannel : string)
    (tokens : Slice) (sender : Addr) (s : St) :
  sl_array tokens ∈ dom h ->
  SendTransfer h sourcePort sourceChannel tokens sender s =
  SendTransferEachOnce sourcePort sourceChannel (sliceElems h tokens) sender s.
Proof.
  intros Hdom. unfold SendTransfer, SendTransferEachOnce, sliceElems, gets, throw.
  unfold_M. cbv beta iota.
  destruct (negb (SendEnabled (params s))); [reflexivity|].
  destruct (IsBlockedAddr sender); [reflexivity|].
  apply sendTransferLoop_range; [lia|].
  split; [exact Hdom|split; [auto|]]. intros _. split; lia.
Qed.

(** C2: for every token of a [SendTransfer] call (whose coin conversion
    and bank send-enabled check pass): if the token's denom has the prefix
    [(source_port, source_channel)], a successful step moves the coin from
    the sender to the module account and burns it there, changing nothing
    but the bank (so [EscrowTotal] is unchanged), and a failed step changes
    nothing; otherwise the step is [EscrowCoin] of the coin from the sender
    to the escrow address of [(source_port, source_channel)]. *)
Theorem send_transfer_token_direction (sourcePort sourceChannel : string)
    (sender : Addr) (token : Token) (coin : Coin) (s : St) :
  ToCoin token s = Ok coin s ->
  IsSendEnabledCoins (bank s) coin = None ->
  (HasPrefix (token_denom token) sourcePort sourceChannel = true ->
     (forall s', sendTransferToken sourcePort sourceChannel sender token s = Ok tt s' ->
        exists cs b1 b2, NewCoins coin s = Ok cs s /\
          SendCoinsFromAccountToModule (bank s) sender ModuleName cs = inr b1 /\
          BurnCoins b1 ModuleName cs = inr b2 /\
          s' = set_bank b2 s /\ escrow s' = escrow s) /\
     (forall e s', sendTransferToken sourcePort sourceChannel sender token s = Err e s' ->
        s' = s)) /\
  (HasPrefix (token_denom token) sourcePort sourceChannel = false ->
     sendTransferToken sourcePort sourceChannel sender token s =
     EscrowCoin sender (GetEscrowAddress sourcePort sourceChannel) coin s).
Proof.
  intros Hcoin Hen. unfold sendTransferToken. unfold_M. rewrite Hcoin, Hen.
  split; intros Hpre; rewrite Hpre; [split|reflexivity].
  - intros s' Hrun. unfold NewCoins in *. unfold_M.
    repeat case_match; simplify_eq/=; do 3 eexists; (split; [reflexivity|]);
      (split; [eassumption|]); (split; [eassumption|]); split; reflexivity.
  - intros e s' Hrun. unfold NewCoins in *. unfold_M.
    repeat case_match; simplify_eq/=; reflexivity.
Qed.

(** C3: for every token of [OnRecvPacket] whose amount parses: if its
    denom has the prefix [(source_port, source_channel)], a successful
    step returns the coin of the denom with the leading hop dropped, and its
    effects are exactly those of [UnescrowCoin] of that coin from the escrow
    address of [(dest_port, dest_channel)] to the receiver; otherwise the
    hop [(dest_port, dest_channel)] is prepended to the trace, a successful
    step registers that denom under its hash unless already present, sets
    its bank metadata unless present, mints the voucher to the module
    account and sends it from the module account to the receiver, leaving
    [EscrowTotal] unchanged, and returns the voucher. *)
Theorem recv_token_direction (sourcePort sourceChannel destPort destChannel : string)
    (receiver : Addr) (token : Token) (amount : Z) (s : St) :
  NewIntFromString (token_amount token) = Some amount ->
  let d := token_denom token in
  (HasPrefix d sourcePort sourceChannel = true ->
     let coin := mkCoin (IBCDenom (mkDenom (Base d) (tail (Trace d)))) amount in
     forall c s',
       recvToken sourcePort sourceChannel destPort destChannel receiver token s = Ok c s' ->
       c = coin /\
       UnescrowCoin (GetEscrowAddress destPort destChannel) receiver coin s = Ok tt s') /\
  (HasPrefix d sourcePort sourceChannel = false ->
     let d' := mkDenom (Base d) (NewHop destPort destChannel :: Trace d) in
     let voucher := mkCoin (IBCDenom d') amount in
     let b0 := if HasDenomMetaData (bank s) (IBCDenom d') then bank s
               else SetDenomMetaData (bank s) d' in
     forall c s',
       recvToken sourcePort sourceChannel destPort destChannel receiver token s = Ok c s' ->
       c = voucher /\
       denoms s' = (if bool_decide (is_Some (denoms s !! DenomHash d')) then denoms s
                    else <[DenomHash d' := d']> (denoms s)) /\
       escrow s' = escrow s /\ params s' = params s /\ acks s' = acks s /\
       exists cs b1, NewCoins voucher s = Ok cs s /\
         MintCoins b0 ModuleName cs = inr b1 /\
         SendCoins b1 (GetModuleAddress ModuleName) receiver cs = inr (bank s')).
Proof.
  intros Hamt d. unfold recvToken. rewrite Hamt. fold d. split; intros Hpre; rewrite Hpre.
  - intros c s' Hrun. unfold NewCoin in Hrun. unfold_M.
    destruct (_ && _); [|discriminate].
    destruct (UnescrowCoin _ _ _ s) as [[] s1| |] eqn:E; simplify_eq. split; reflexivity.
  - intros c s' Hrun. unfold HasDenom, SetDenom, SetDenomMetadata, NewCoin in Hrun.
    unfold NewCoins in *. unfold_M.
    repeat (first
      [ match type of Hrun with context[match ?m with inl _ => _ | inr _ => _ end] =>
          destruct m eqn:? end
      | match type of Hrun with context[if ?b then _ else _] => destruct b eqn:? end ];
      cbn [coin_amount coin_denom bank denoms set_bank set_denoms] in Hrun;
      cbv beta iota in Hrun; try discriminate).
    all: injection Hrun as <- <-; cbn [coin_amount coin_denom bank denoms escrow params acks set_bank set_denoms].
    all: split; [reflexivity|]; split; [reflexivity|]; split; [reflexivity|];
      split; [reflexivity|]; split; [reflexivity|].
    all: do 2 eexists; split; [|split; eassumption].
    all: repeat match goal with E : ?b = _ |- context[?b] => rewrite E end; reflexivity.
Qed.

(** C5: a success acknowledgement returns nil with no state change; an
    error acknowledgement and a timeout both run [refundPacketTokens];
    there, per token (whose coin conversion succeeds), a token whose denom
    has the prefix [(source_port, source_channel)] is minted to the module
    account and sent from it to the sender, with no other effect, and any
    other token is unescrowed to the sender from the escrow address of
    [(source_port, source_channel)]. *)
Theorem ack_timeout_refund (sourcePort sourceChannel : string)
    (data : FungibleTokenPacketDataV2) (s : St) :
  (forall r, OnAcknowledgementPacket sourcePort sourceChannel data
               (Acknowledgement_Result r) s = Ok tt s) /\
  (forall e, OnAcknowledgementPacket sourcePort sourceChannel data
               (Acknowledgement_Error e) s = refundPacketTokens sourcePort sourceChannel data s) /\
  OnTimeoutPacket sourcePort sourceChannel data s = refundPacketTokens sourcePort sourceChannel data s /\
  (forall sender token coin, ToCoin token s = Ok coin s ->
     let escrowAddress := GetEscrowAddress sourcePort sourceChannel in
     let moduleAccountAddr := GetModuleAddress ModuleName in
     (HasPrefix (token_denom token) sourcePort sourceChannel = true ->
        forall s', refundToken sourcePort sourceChannel sender escrowAddress moduleAccountAddr
                     token s = Ok tt s' ->
        exists cs b1 b2, NewCoins coin s = Ok cs s /\
          MintCoins (bank s) ModuleName cs = inr b1 /\
          SendCoins b1 moduleAccountAddr sender cs = inr b2 /\ s' = set_bank b2 s) /\
     (HasPrefix (token_denom token) sourcePort sourceChannel = false ->
        refundToken sourcePort sourceChannel sender escrowAddress moduleAccountAddr token s =
        UnescrowCoin escrowAddress sender coin s)).
Proof.
  split; [reflexivity|]. split; [|split; [reflexivity|]].
  - intros e. unfold OnAcknowledgementPacket. unfold_M.
    destruct (refundPacketTokens sourcePort sourceChannel data s) as [[] s'| |]; reflexivity.
  - intros sender token coin Hcoin escrowAddress moduleAccountAddr.
    unfold refundToken. unfold_M. rewrite Hcoin.
    split; intros Hpre; rewrite Hpre; [|reflexivity].
    intros s' Hrun. unfold NewCoins in *. unfold_M.
    repeat case_match; simplify_eq/=; try congruence;
      do 3 eexists; (split; [reflexivity|]); (split; [eassumption|]);
      (split; [eassumption|]); reflexivity.
Qed.

(** C6: on a success acknowledgement of the forwarded packet, only the
    trivial success acknowledgement of the original inbound packet is
    written, with no revert; on an error acknowledgement, and on a timeout,
    [revertForwardedPacket] runs first and the synthetic error (timeout)
    acknowledgement is written only after it succeeds; when the revert
    fails its error is returned and no acknowledgement has been written.
    The revert undoes the receive step of the inbound packet: for a token
    received as coin [c], the payload token carrying that value is escrowed
    back into the escrow account it was unescrowed from, or burnt when it
    was minted; a successful revert raises each escrow total by what the
    receive took out of it, so that after a receive, any escrow-neutral
    steps and the revert, every escrow total is back at its pre-receipt
    value. *)
Theorem forwarded_ack_revert_first (packet forwardedPacket : Packet)
    (data : FungibleTokenPacketDataV2) (s : St) :
  (forall r, HandleForwardedPacketAcknowledgement packet forwardedPacket data
               (Acknowledgement_Result r) s =
             Ok tt (set_acks (acks s ++ [(forwardedPacket, TrivialResultAck)]) s)) /\
  (forall err,
     HandleForwardedPacketAcknowledgement packet forwardedPacket data
       (Acknowledgement_Error err) s =
     match revertForwardedPacket forwardedPacket data s with
     | Ok _ s1 =>
         Ok tt (set_acks (acks s1 ++ [(forwardedPacket,
                  NewForwardErrorAcknowledgement packet (Acknowledgement_Error err))]) s1)
     | Err e s1 => Err e s1
     | Panic p => Panic p
     end) /\
  HandleForwardedPacketTimeout packet forwardedPacket data s =
  match revertForwardedPacket forwardedPacket data s with
  | Ok _ s1 =>
      Ok tt (set_acks (acks s1 ++ [(forwardedPacket,
               NewForwardTimeoutAcknowledgement packet)]) s1)
  | Err e s1 => Err e s1
  | Panic p => Panic p
  end /\
  (forall e s1, revertForwardedPacket forwardedPacket data s = Err e s1 -> acks s1 = acks s) /\
  (forall (t u : Token) (c : Coin) (s0 s1 s2 : St),
     recvToken (SourcePort forwardedPacket) (SourceChannel forwardedPacket)
       (DestinationPort forwardedPacket) (DestinationChannel forwardedPacket)
       (GetModuleAddress ModuleName) t s0 = Ok c s1 ->
     forwardedToken forwardedPacket t u ->
     revertBranchSound forwardedPacket t ->
     revertToken forwardedPacket u s2 =
     (if HasPrefix (token_denom t) (SourcePort forwardedPacket) (SourceChannel forwardedPacket)
      then EscrowCoin (GetModuleAddress ModuleName)
             (GetEscrowAddress (DestinationPort forwardedPacket)
                (DestinationChannel forwardedPacket)) c
      else (coins ← NewCoins c; bankCall (fun b => BurnCoins b ModuleName coins))) s2) /\
  (forall (inbound : list Token) (s1 s2 : St),
     Forall2 (forwardedToken forwardedPacket) inbound (Tokens data) ->
     Forall (revertBranchSound forwardedPacket) inbound ->
     revertForwardedPacket forwardedPacket data s1 = Ok tt s2 ->
     forall d, EscrowTotal s2 d =
               EscrowTotal s1 d + unescrowDelta (SourcePort forwardedPacket)
                                    (SourceChannel forwardedPacket) inbound d) /\
  (forall (inData : FungibleTokenPacketDataV2) (cs : Coins) (s0 s1 s1' s2 : St),
     OnRecvPacket inData (SourcePort forwardedPacket) (SourceChannel forwardedPacket)
       (DestinationPort forwardedPacket) (DestinationChannel forwardedPacket) s0 = Ok cs s1 ->
     (forall d, EscrowTotal s1' d = EscrowTotal s1 d) ->
     Forall2 (forwardedToken forwardedPacket) (Tokens inData) (Tokens data) ->
     Forall (revertBranchSound forwardedPacket) (Tokens inData) ->
     revertForwardedPacket forwardedPacket data s1' = Ok tt s2 ->
     forall d, EscrowTotal s2 d = EscrowTotal s0 d).
Proof.
  split; [reflexivity|]. split; [|split; [|split; [|split; [|split]]]].
  - intros err. unfold HandleForwardedPacketAcknowledgement, acknowledgeForwardedPacket.
    unfold_M. destruct (revertForwardedPacket forwardedPacket data s); reflexivity.
  - unfold HandleForwardedPacketTimeout, acknowledgeForwardedPacket.
    unfold_M. destruct (revertForwardedPacket forwardedPacket data s); reflexivity.
  - intros e s1 Hrev. pose proof (revertForwardedPacket_keepsAcks forwardedPacket data s) as Hk.
    rewrite Hrev in Hk. exact Hk.
  - intros t u c s0 s1 s2 Hrecv Hfw Hsound.
    unfold revertToken, mbind, M_bind at 1.
    rewrite (forwardedToken_ToCoin forwardedPacket _ t u c s0 s1 Hrecv Hfw s2).
    cbv beta iota zeta. destruct Hfw as [Hd _]. rewrite Hd, (HasPrefix_receivedDenom _ _ Hsound).
    destruct (HasPrefix (token_denom t) _ _); reflexivity.
  - intros inbound s1 s2 Hrel Hsound Hrun.
    exact (revertForwardedPacket_delta forwardedPacket data inbound Hrel Hsound s1 s2 Hrun).
  - intros inData cs s0 s1 s1' s2 Hrecv Hmid Hrel Hsound Hrun d.
    apply OnRecvPacket_Ok in Hrecv as (_ & _ & Hd).
    rewrite (revertForwardedPacket_delta forwardedPacket data _ Hrel Hsound s1' s2 Hrun d),
      Hmid, Hd.
    lia.
Qed.

(** C4 (as amended): for a coin [sdk.NewCoins] accepts, [EscrowCoin]
    returns the funds-move error unchanged, with no state change, when the
    move fails; when the move succeeds it adds [coin.amount] to
    [EscrowTotal(coin.denom)] and returns nil, unless the new total leaves
    the 256-bit [math.Int] range, where it panics.  [UnescrowCoin] returns
    the funds-move error wrapped with its own label, with no state change,
    when the move fails; when it succeeds it subtracts [coin.amount] from
    [EscrowTotal(coin.denom)] and returns nil, unless the total would become
    negative (or leave the range), where it panics. *)
Theorem escrow_unescrow_funds_move (sender escrowAddress receiver : Addr)
    (coin : Coin) (cs : Coins) (s : St) :
  NewCoins coin s = Ok cs s ->
  let d := coin_denom coin in
  let T := EscrowTotal s d in
  let a := coin_amount coin in
  (forall e, SendCoins (bank s) sender escrowAddress cs = inl e ->
     EscrowCoin sender escrowAddress coin s = Err e s) /\
  (forall b, SendCoins (bank s) sender escrowAddress cs = inr b ->
     EscrowCoin sender escrowAddress coin s =
     if IntOverflows (T + a) then Panic "Int overflow"
     else Ok tt (set_escrow (<[d := T + a]> (escrow s)) (set_bank b s))) /\
  (forall e, SendCoins (bank s) escrowAddress receiver cs = inl e ->
     UnescrowCoin escrowAddress receiver coin s = Err (Wrap UnescrowErrMsg e) s) /\
  (forall b, SendCoins (bank s) escrowAddress receiver cs = inr b ->
     UnescrowCoin escrowAddress receiver coin s =
     if IntOverflows (T - a) then Panic "Int overflow"
     else if T - a <? 0 then Panic "negative coin amount"
     else Ok tt (set_escrow (<[d := T - a]> (escrow s)) (set_bank b s))).
Proof.
  intros Hcoins d T a.
  unfold EscrowCoin, UnescrowCoin, GetTotalEscrowForDenom, CoinAdd, CoinSub, IntAdd, IntSub,
    SetTotalEscrowForDenom. unfold_M. rewrite Hcoins.
  split; [|split; [|split]]; intros x Hsend; rewrite Hsend; try reflexivity;
    simpl; rewrite String.eqb_refl; fold d;
    change (EscrowTotal (set_bank x s) d) with T; subst a;
    repeat match goal with
           | |- context [IntOverflows ?z] => destruct (IntOverflows z)
           | |- context [(?z <? 0)] => destruct (z <? 0)
           end; reflexivity.
Qed.

(** C7 (as amended): with the send gate off [SendTransfer] returns the
    Disabled error, and with the gate on and a blocked sender the
    Unauthorized error, in both cases before any token and with the state
    unchanged.  With the receive gate off [OnRecvPacket] returns an error
    with the state unchanged: the validation error when the payload fails
    its structural validation (checked first), and the Disabled error
    exactly when it passes;
    with a valid payload, the gate on and a blocked resolved receiver it
    returns the Unauthorized error with the state unchanged. *)
Theorem gates_fail_without_mutation (h : Heap)
    (sourcePort sourceChannel destPort destChannel : string) (tokens : Slice)
    (sender : Addr) (data : FungibleTokenPacketDataV2) (s : St) :
  (SendEnabled (params s) = false ->
     SendTransfer h sourcePort sourceChannel tokens sender s = Err ErrSendDisabled s) /\
  (SendEnabled (params s) = true -> IsBlockedAddr sender = true ->
     SendTransfer h sourcePort sourceChannel tokens sender s =
     Err (Wrap "is not allowed to send funds" ErrUnauthorized) s) /\
  (ReceiveEnabled (params s) = false ->
     exists e, OnRecvPacket data sourcePort sourceChannel destPort destChannel s = Err e s /\
       (forall err, ValidateBasicV2 data = Some err ->
          e = Wrap "error validating ICS-20 transfer packet data" err) /\
       (e = ErrReceiveDisabled <-> ValidateBasicV2 data = None)) /\
  (ValidateBasicV2 data = None -> ReceiveEnabled (params s) = true ->
     forall receiver, getReceiverFromPacketData data s = Ok receiver s ->
     IsBlockedAddr receiver = true ->
     OnRecvPacket data sourcePort sourceChannel destPort destChannel s =
     Err (Wrap "is not allowed to receive funds" ErrUnauthorized) s).
Proof.
  unfold SendTransfer, OnRecvPacket. unfold_M. cbv beta iota.
  split; [|split; [|split]].
  - intros Hoff. rewrite Hoff. reflexivity.
  - intros Hon Hbl. rewrite Hon, Hbl. reflexivity.
  - intros Hoff. destruct (ValidateBasicV2 data) as [err|].
    + eexists. split; [reflexivity|]. split.
      * intros err' Herr. congruence.
      * split; discriminate.
    + rewrite Hoff. eexists. split; [reflexivity|]. split.
      * intros err' Herr. discriminate.
      * split; reflexivity.
  - intros Hval Hon receiver Hrecv Hbl. rewrite Hval. cbv beta iota.
    rewrite Hon. cbn [negb]. cbv beta iota. rewrite Hrecv, Hbl. reflexivity.
Qed.

(** C8: under V1 a token list whose length is not exactly 1 gives the
    InvalidRequest error and nil bytes; in particular every 2-token list. *)
Theorem v1_rejects_token_count (sender receiver memo : string)
    (tokens : list Token) (hops : list Hop) :
  (length tokens <> 1%nat ->
   createPacketDataBytesFromVersion V1 sender receiver memo tokens hops =
   (None, Some (Wrap "cannot transfer multiple coins with ics20-1" ErrInvalidRequest))) /\
  (forall t1 t2,
   createPacketDataBytesFromVersion V1 sender receiver memo [t1; t2] hops =
   (None, Some (Wrap "cannot transfer multiple coins with ics20-1" ErrInvalidRequest))).
Proof.
  assert (Hgen : forall l : list Token, length l <> 1%nat ->
    createPacketDataBytesFromVersion V1 sender receiver memo l hops =
    (None, Some (Wrap "cannot transfer multiple coins with ics20-1" ErrInvalidRequest))).
  { intros l Hl. unfold createPacketDataBytesFromVersion. rewrite String.eqb_refl.
    destruct (length l =? 1)%nat eqn:E; [apply Nat.eqb_eq in E; contradiction|reflexivity]. }
  split; [apply Hgen|]. intros t1 t2. apply Hgen. simpl. lia.
Qed.

(** C9: under V2 with a non-empty hops list the packet data built (and
    validated, then encoded) has the empty top-level memo and the
    forwarding payload (memo, hops); with no hops it has the given memo and
    the empty forwarding payload. *)
Theorem v2_memo_moves_to_forwarding (sender receiver memo : string)
    (tokens : list Token) (hops : list Hop) :
  (hops <> [] ->
   createPacketDataBytesFromVersion V2 sender receiver memo tokens hops =
   let packetData := NewFungibleTokenPacketDataV2 tokens sender receiver ""
                       (NewForwardingPacketData memo hops) in
   match ValidateBasicV2 packetData with
   | Some err => (None, Some (Wrap "failed to validate ics20-2 packet data" err))
   | None => (Some (GetBytesV2 packetData), None)
   end) /\
  (hops = [] ->
   createPacketDataBytesFromVersion V2 sender receiver memo tokens hops =
   let packetData := NewFungibleTokenPacketDataV2 tokens sender receiver memo
                       ForwardingZero in
   match ValidateBasicV2 packetData with
   | Some err => (None, Some (Wrap "failed to validate ics20-2 packet data" err))
   | None => (Some (GetBytesV2 packetData), None)
   end).
Proof.
  unfold createPacketDataBytesFromVersion.
  change (String.eqb V2 V1) with false. rewrite String.eqb_refl.
  split; intros Hh.
  - destruct hops as [|hop hops']; [contradiction|reflexivity].
  - subst hops. reflexivity.
Qed.

End Claims.

Section Properties.
Context `{!Env}.


(** X2: [SendTransfer], [OnRecvPacket], [OnAcknowledgementPacket] and
    [OnTimeoutPacket] keep the denom registry consistent (every entry under
    its own hash, with a trace), also when they fail. *)
Theorem registry_consistency_kept (h : Heap) (sp sc dp dc : string) (tokens : Slice)
    (sender : Addr) (data : FungibleTokenPacketDataV2) (ack : Acknowledgement) :
  preserves registryOk (SendTransfer h sp sc tokens sender) /\
  preserves registryOk (OnRecvPacket data sp sc dp dc) /\
  preserves registryOk (OnAcknowledgementPacket sp sc data ack) /\
  preserves registryOk (OnTimeoutPacket sp sc data).
Proof.
  split; [apply preserves_SendTransfer; stable|].
  split; [apply OnRecvPacket_registryOk|].
  split; [apply preserves_OnAcknowledgementPacket; stable|].
  apply preserves_OnTimeoutPacket; stable.
Qed.

(** X3: the four entry points keep every escrow total non-negative, also
    when they fail. *)
Theorem escrow_nonneg_kept (h : Heap) (sp sc dp dc : string) (tokens : Slice)
    (sender : Addr) (data : FungibleTokenPacketDataV2) (ack : Acknowledgement) :
  preserves escrowNonNeg (SendTransfer h sp sc tokens sender) /\
  preserves escrowNonNeg (OnRecvPacket data sp sc dp dc) /\
  preserves escrowNonNeg (OnAcknowledgementPacket sp sc data ack) /\
  preserves escrowNonNeg (OnTimeoutPacket sp sc data).
Proof.
  split; [apply preserves_SendTransfer; nonneg|].
  split; [apply preserves_OnRecvPacket; nonneg|].
  split; [apply preserves_OnAcknowledgementPacket; nonneg|].
  apply preserves_OnTimeoutPacket; nonneg.
Qed.

(** X4: a successful [SendTransfer] raises the escrow total of each
    denomination by the amounts of the slice's tokens it escrows (those
    without the prefix [(sourcePort, sourceChannel)]), and changes no other
    escrow total. *)
Theorem SendTransfer_escrow_delta (h : Heap) (sourcePort sourceChannel : string)
    (tokens : Slice) (sender : Addr) (s s' : St) :
  sl_array tokens ∈ dom h ->
  SendTransfer h sourcePort sourceChannel tokens sender s = Ok tt s' ->
  forall d, EscrowTotal s' d =
            EscrowTotal s d + escrowDelta sourcePort sourceChannel (sliceElems h tokens) d.
Proof. apply SendTransfer_Ok_delta. Qed.

(** X5: a successful refund, on a timeout or an error acknowledgement,
    lowers the escrow total of each denomination by the amounts of the
    packet's tokens without the prefix, and changes no other escrow total. *)
Theorem refund_escrow_delta (sourcePort sourceChannel : string)
    (data : FungibleTokenPacketDataV2) (s s' : St) :
  (OnTimeoutPacket sourcePort sourceChannel data s = Ok tt s' \/
   exists e, OnAcknowledgementPacket sourcePort sourceChannel data
               (Acknowledgement_Error e) s = Ok tt s') ->
  forall d, EscrowTotal s' d =
            EscrowTotal s d - escrowDelta sourcePort sourceChannel (Tokens data) d.
Proof. intros Hr. apply refundPacketTokens_Ok_delta, refund_entry_Ok, Hr. Qed.

(** X6: a successful [SendTransfer] followed by a successful refund of the
    packet carrying the same tokens (timeout or error acknowledgement)
    leaves every escrow total as it was before the send. *)
Theorem send_then_refund_restores_escrow (h : Heap) (sourcePort sourceChannel : string)
    (tokens : Slice) (sender : Addr) (data : FungibleTokenPacketDataV2) (s s1 s2 : St) :
  sl_array tokens ∈ dom h ->
  Tokens data = sliceElems h tokens ->
  SendTransfer h sourcePort sourceChannel tokens sender s = Ok tt s1 ->
  (OnTimeoutPacket sourcePort sourceChannel data s1 = Ok tt s2 \/
   exists e, OnAcknowledgementPacket sourcePort sourceChannel data
               (Acknowledgement_Error e) s1 = Ok tt s2) ->
  forall d, EscrowTotal s2 d = EscrowTotal s d.
Proof.
  intros Hdom Htok Hsend Hrefund d.
  apply refund_entry_Ok in Hrefund.
  rewrite (refundPacketTokens_Ok_delta _ _ _ _ _ Hrefund d),
          (SendTransfer_Ok_delta _ _ _ _ _ _ _ Hdom Hsend d), Htok.
  lia.
Qed.

(** X7: a successful [OnRecvPacket] returns one coin per token of the
    packet, in order: the parsed amount in the denomination with the
    leading hop removed (prefix) or with the destination hop prepended. *)
Theorem OnRecvPacket_received_coins (data : FungibleTokenPacketDataV2)
    (sourcePort sourceChannel destPort destChannel : string) (s : St) (cs : Coins) (s' : St) :
  OnRecvPacket data sourcePort sourceChannel destPort destChannel s = Ok cs s' ->
  cs = map (recvCoin sourcePort sourceChannel destPort destChannel) (Tokens data).
Proof. intros Hrun. apply OnRecvPacket_Ok in Hrun as (_ & Hcs & _). exact Hcs. Qed.

(** X8: a successful [OnRecvPacket] lowers the escrow total of each
    denomination by the amounts of the tokens it unescrows (prefix, in
    the shortened denomination), and changes no other escrow total. *)
Theorem OnRecvPacket_escrow_delta (data : FungibleTokenPacketDataV2)
    (sourcePort sourceChannel destPort destChannel : string) (s : St) (cs : Coins) (s' : St) :
  OnRecvPacket data sourcePort sourceChannel destPort destChannel s = Ok cs s' ->
  forall d, EscrowTotal s' d =
            EscrowTotal s d - unescrowDelta sourcePort sourceChannel (Tokens data) d.
Proof. intros Hrun. apply OnRecvPacket_Ok in Hrun as (_ & _ & Hd). exact Hd. Qed.

(** X9: [SendTransfer], [OnAcknowledgementPacket] and [OnTimeoutPacket]
    never touch the denom registry, the parameters or the written
    acknowledgements, whether they succeed or fail. *)
Theorem send_refund_frame (h : Heap) (sp sc : string) (tokens : Slice) (sender : Addr)
    (data : FungibleTokenPacketDataV2) (ack : Acknowledgement) :
  keeps (fun s => (denoms s, params s, acks s)) (SendTransfer h sp sc tokens sender) /\
  keeps (fun s => (denoms s, params s, acks s)) (OnAcknowledgementPacket sp sc data ack) /\
  keeps (fun s => (denoms s, params s, acks s)) (OnTimeoutPacket sp sc data).
Proof.
  split; [apply keeps_of_preserves; intros b; apply preserves_SendTransfer; stable|].
  split; [apply keeps_of_preserves; intros b; apply preserves_OnAcknowledgementPacket; stable|].
  apply keeps_of_preserves; intros b; apply preserves_OnTimeoutPacket; stable.
Qed.

(** X10: [OnRecvPacket] never touches the parameters or the written
    acknowledgements and never removes or overwrites a registry entry
    (it only registers a denomination whose hash is absent), whether it
    succeeds or fails. *)
Theorem OnRecvPacket_frame (data : FungibleTokenPacketDataV2) (sp sc dp dc : string) (s : St) :
  match OnRecvPacket data sp sc dp dc s with
  | Ok _ s' | Err _ s' => params s' = params s /\ acks s' = acks s /\ denoms s ⊆ denoms s'
  | Panic _ => True
  end.
Proof.
  apply (preserves_OnRecvPacket
           (fun s1 => params s1 = params s /\ acks s1 = acks s /\ denoms s ⊆ denoms s1)).
  - stable.
  - stable.
  - intros s1 d _ Hn (Hp & Ha & Hm). split; [exact Hp|split; [exact Ha|]].
    exact (registry_grows _ _ _ Hn Hm).
  - split; [reflexivity|split; reflexivity].
Qed.

(** X11: after a successful [OnRecvPacket], the registry holds an entry
    under the hash of the voucher denomination of every received token
    without the prefix. *)
Theorem OnRecvPacket_registers_vouchers (data : FungibleTokenPacketDataV2)
    (sourcePort sourceChannel destPort destChannel : string)
    (s : St) (cs : Coins) (s' : St) (t : Token) :
  OnRecvPacket data sourcePort sourceChannel destPort destChannel s = Ok cs s' ->
  t ∈ Tokens data ->
  HasPrefix (token_denom t) sourcePort sourceChannel = false ->
  is_Some (denoms s' !! DenomHash (voucherDenom destPort destChannel t)).
Proof.
  intros Hrun Hin Hp. apply OnRecvPacket_Ok in Hrun as ([receiver Hl] & _).
  exact (recvLoop_registers _ _ _ _ _ _ _ _ _ _ Hl t Hin Hp).
Qed.

(** X12: from a consistent registry, every voucher a successful
    [OnRecvPacket] mints is resolved by [TokenFromCoin] in the registry it
    leaves, to a token that [Token.ToCoin] converts back to the voucher,
    when the hash decoder reads the hash of a traced denomination as
    itself. *)
Theorem received_voucher_resolves (ParseHexHash : string -> string + string)
    (data : FungibleTokenPacketDataV2) (sourcePort sourceChannel destPort destChannel : string)
    (s : St) (cs : Coins) (s' : St) (t : Token) :
  registryOk s ->
  (forall d, Trace d <> [] -> ParseHexHash (DenomHash d) = inr (DenomHash d)) ->
  OnRecvPacket data sourcePort sourceChannel destPort destChannel s = Ok cs s' ->
  t ∈ Tokens data ->
  HasPrefix (token_denom t) sourcePort sourceChannel = false ->
  let c := recvCoin sourcePort sourceChannel destPort destChannel t in
  exists t', TokenFromCoin ParseHexHash (denoms s') c = inr t' /\
             forall s1, ToCoin t' s1 = NewCoin (coin_denom c) (coin_amount c) s1.
Proof.
  intros Hreg Hph Hrun Hin Hp c.
  pose proof (OnRecvPacket_registryOk data sourcePort sourceChannel destPort destChannel s Hreg)
    as Hreg'.
  rewrite Hrun in Hreg'.
  apply OnRecvPacket_Ok in Hrun as ([receiver Hl] & _).
  destruct (recvLoop_registers _ _ _ _ _ _ _ _ _ _ Hl t Hin Hp) as [e He].
  assert (Hc : c = mkCoin ("ibc/" +:+ DenomHash (voucherDenom destPort destChannel t))
                          (default 0 (NewIntFromString (token_amount t)))).
  { subst c. unfold recvCoin. cbv zeta. rewrite Hp. reflexivity. }
  rewrite Hc. unfold TokenFromCoin. cbn [coin_denom coin_amount].
  rewrite prefix_ibc_app, substring_ibc_app, (Hph (voucherDenom destPort destChannel t) ltac:(discriminate)), He.
  simpl negb. cbv iota.
  eexists; split; [reflexivity|]. intros s1. unfold ToCoin. cbn [token_amount token_denom].
  rewrite IntString_parse by apply IntOverflows_parsed.
  rewrite (registry_IBCDenom _ _ _ Hreg' He). reflexivity.
Qed.

(** X13: [createPacketDataBytesFromVersion] returns exactly one of packet
    bytes and an error, never both and never neither; bytes come only for
    ics20-1 with exactly one token, or for ics20-2. *)
Theorem createPacketDataBytes_exclusive (appVersion sender receiver memo : string)
    (tokens : list Token) (hops : list Hop) :
  match createPacketDataBytesFromVersion appVersion sender receiver memo tokens hops with
  | (Some _, None) => (appVersion = V1 /\ length tokens = 1%nat) \/ appVersion = V2
  | (None, Some _) => True
  | _ => False
  end.
Proof.
  unfold createPacketDataBytesFromVersion.
  destruct (String.eqb appVersion V1) eqn:H1.
  - apply String.eqb_eq in H1.
    destruct (length tokens =? 1)%nat eqn:Hl; simpl; [|exact I].
    apply Nat.eqb_eq in Hl. destruct (ValidateBasicV1 _); simpl; [exact I|].
    left. split; assumption.
  - destruct (String.eqb appVersion V2) eqn:H2; [|exact I].
    apply String.eqb_eq in H2.
    destruct (0 <? length hops)%nat; destruct (ValidateBasicV2 _); simpl;
      try exact I; right; exact H2.
Qed.

End Properties.

(** ** Applications to concrete inputs *)

Module Witnesses.
Import Toy.

Lemma escrow_total_conservation_witness :
  0 <= EscrowTotal s_alice "atom" /\
  runOps ops_escrow_unescrow s_alice = Ok tt s_after_ops /\
  EscrowTotal s_after_ops "atom" =
    EscrowTotal s_alice "atom" + escrowedIn "atom" ops_escrow_unescrow
    - unescrowedIn "atom" ops_escrow_unescrow /\
  0 <= EscrowTotal s_after_ops "atom".
Proof.
  assert (h1 : 0 <= EscrowTotal s_alice "atom") by (vm_compute; intros ?; discriminate).
  assert (h2 : runOps ops_escrow_unescrow s_alice = Ok tt s_after_ops)
    by (reflexivity).
  destruct (escrow_total_conservation ops_escrow_unescrow s_alice s_after_ops "atom" h1 h2)
    as (Htot & Hnn & _).
  split; [exact h1|split; [exact h2|split; [exact Htot|exact Hnn]]].
Defined.

Lemma send_transfer_each_token_once_witness :
  sl_array slice_two ∈ dom heap_two /\
  SendTransfer heap_two "transfer" "channel-0" slice_two "alice" s_alice =
  SendTransferEachOnce "transfer" "channel-0" [tok5; tok5] "alice" s_alice.
Proof.
  assert (h1 : sl_array slice_two ∈ dom heap_two)
    by (apply elem_of_dom; eexists; reflexivity).
  split; [exact h1|].
  exact (send_transfer_each_token_once heap_two "transfer" "channel-0" slice_two "alice"
           s_alice h1).
Defined.

Lemma send_transfer_token_direction_witness :
  ToCoin tok5 s_alice = Ok coin5 s_alice /\
  IsSendEnabledCoins (bank s_alice) coin5 = None /\
  sendTransferToken "transfer" "channel-0" "alice" tok5 s_alice =
  EscrowCoin "alice" (GetEscrowAddress "transfer" "channel-0") coin5 s_alice.
Proof.
  assert (h1 : ToCoin tok5 s_alice = Ok coin5 s_alice) by (reflexivity).
  assert (h2 : IsSendEnabledCoins (bank s_alice) coin5 = None) by reflexivity.
  split; [exact h1|split; [exact h2|]].
  destruct (send_transfer_token_direction "transfer" "channel-0" "alice" tok5 coin5
              s_alice h1 h2) as [_ Hno].
  exact (Hno eq_refl).
Defined.

Lemma recv_token_direction_witness :
  NewIntFromString (token_amount tok5) = Some 5 /\
  forall c s',
    recvToken "transfer" "channel-0" "transfer" "channel-1" "bob" tok5 s_alice = Ok c s' ->
    c = mkCoin (IBCDenom (mkDenom "atom" [NewHop "transfer" "channel-1"])) 5.
Proof.
  assert (h1 : NewIntFromString (token_amount tok5) = Some 5) by reflexivity.
  split; [exact h1|]. intros c s' Hrun.
  pose proof (recv_token_direction "transfer" "channel-0" "transfer" "channel-1" "bob"
                tok5 5 s_alice h1) as Hdir.
  cbv zeta in Hdir. destruct Hdir as [_ Hno].
  destruct (Hno eq_refl c s' Hrun) as [Hc _]. exact Hc.
Defined.

Lemma escrow_unescrow_funds_move_witness :
  NewCoins coin5 s_alice = Ok [coin5] s_alice /\
  SendCoins (bank s_alice) "carol" "esc" [coin5] = inl (ErrBank "insufficient funds") /\
  EscrowCoin "carol" "esc" coin5 s_alice = Err (ErrBank "insufficient funds") s_alice.
Proof.
  assert (h1 : NewCoins coin5 s_alice = Ok [coin5] s_alice) by (reflexivity).
  assert (h2 : SendCoins (bank s_alice) "carol" "esc" [coin5] = inl (ErrBank "insufficient funds"))
    by (reflexivity).
  split; [exact h1|split; [exact h2|]].
  destruct (escrow_unescrow_funds_move "carol" "esc" "bob" coin5 [coin5] s_alice h1)
    as [Herr _].
  exact (Herr _ h2).
Defined.

(** [EscrowCoin] panics after a successful funds move when the new total
    leaves the [math.Int] range, and [UnescrowCoin] panics after a
    successful funds move when the tracked total is below the amount. *)
Lemma escrow_unescrow_panic_counterexample :
  (exists b, SendCoins (bank s_full_total) "alice" "esc" [mkCoin "atom" 1] = inr b) /\
  EscrowCoin "alice" "esc" (mkCoin "atom" 1) s_full_total = Panic "Int overflow" /\
  (exists b, SendCoins (bank s_untracked) "esc" "bob" [mkCoin "atom" 3] = inr b) /\
  UnescrowCoin "esc" "bob" (mkCoin "atom" 3) s_untracked = Panic "negative coin amount".
Proof.
  split; [eexists; reflexivity|].
  split; [reflexivity|].
  split; [eexists; reflexivity|].
  reflexivity.
Qed.

(** With the receive gate off, a payload that fails validation gets the
    validation error, not the Disabled error. *)
Lemma recv_validation_before_gate_counterexample :
  ReceiveEnabled (params s_recv_off) = false /\
  OnRecvPacket zero_packet "transfer" "channel-0" "transfer" "channel-1" s_recv_off =
  Err (Wrap "error validating ICS-20 transfer packet data"
         (Wrap "amount must be strictly positive" ErrInvalidAmount)) s_recv_off /\
  root (Wrap "error validating ICS-20 transfer packet data"
          (Wrap "amount must be strictly positive" ErrInvalidAmount)) <> ErrReceiveDisabled.
Proof.
  split; [reflexivity|]. split; [reflexivity|]. simpl. discriminate.
Qed.


(** A receive of a native token and of a token returning home, to the
    module account, followed by the revert of the forwarded packet,
    leaves both escrow totals where they were. *)
Lemma forwarded_ack_revert_first_witness :
  OnRecvPacket data_fwd_in (SourcePort fwd_packet) (SourceChannel fwd_packet)
    (DestinationPort fwd_packet) (DestinationChannel fwd_packet) s_recv = Ok cs_fwd s_fwd_recvd /\
  Forall2 (forwardedToken fwd_packet) (Tokens data_fwd_in) (Tokens data_fwd_out) /\
  Forall (revertBranchSound fwd_packet) (Tokens data_fwd_in) /\
  revertForwardedPacket fwd_packet data_fwd_out s_fwd_recvd = Ok tt s_reverted /\
  EscrowTotal s_fwd_recvd "atom" = 0 /\
  EscrowTotal s_reverted "atom" = EscrowTotal s_recv "atom" /\
  EscrowTotal s_reverted (IBCDenom voucher_atom) = EscrowTotal s_recv (IBCDenom voucher_atom).
Proof.
  assert (h1 : OnRecvPacket data_fwd_in (SourcePort fwd_packet) (SourceChannel fwd_packet)
    (DestinationPort fwd_packet) (DestinationChannel fwd_packet) s_recv = Ok cs_fwd s_fwd_recvd)
    by vm_refl.
  assert (h2 : Forall2 (forwardedToken fwd_packet) (Tokens data_fwd_in) (Tokens data_fwd_out))
    by (repeat constructor).
  assert (h3 : Forall (revertBranchSound fwd_packet) (Tokens data_fwd_in))
    by (constructor; [|constructor; [|constructor]]; intros Hp;
        [vm_compute in Hp; discriminate | reflexivity]).
  assert (h4 : revertForwardedPacket fwd_packet data_fwd_out s_fwd_recvd = Ok tt s_reverted)
    by vm_refl.
  assert (h5 : EscrowTotal s_fwd_recvd "atom" = 0) by vm_refl.
  destruct (forwarded_ack_revert_first fwd_packet fwd_packet data_fwd_out s_recv)
    as (_ & _ & _ & _ & _ & _ & Hround).
  split; [exact h1|]. split; [exact h2|]. split; [exact h3|]. split; [exact h4|].
  split; [exact h5|]. split.
  - exact (Hround data_fwd_in cs_fwd s_recv s_fwd_recvd s_fwd_recvd s_reverted h1
             (fun d => eq_refl) h2 h3 h4 "atom").
  - exact (Hround data_fwd_in cs_fwd s_recv s_fwd_recvd s_fwd_recvd s_reverted h1
             (fun d => eq_refl) h2 h3 h4 (IBCDenom voucher_atom)).
Defined.

End Witnesses.

Module PropertyWitnesses.
Import Toy.



Lemma parseHex_traced (d : Denom) : Trace d <> [] -> parseHex (DenomHash d) = inr (DenomHash d).
Proof.
  intros Htr. unfold parseHex, DenomHash, Sha256Hex; simpl. unfold Path.
  destruct (Trace d); [contradiction|]. destruct (TracePath _); reflexivity.
Qed.

Lemma s_recv_registryOk : registryOk s_recv.
Proof. intros k d Hk. discriminate Hk. Qed.


Lemma SendTransfer_escrow_delta_witness :
  sl_array slice_two ∈ dom heap_two /\
  SendTransfer heap_two "transfer" "channel-0" slice_two "alice" s_alice = Ok tt s_sent /\
  EscrowTotal s_sent "atom" =
    EscrowTotal s_alice "atom" + escrowDelta "transfer" "channel-0" [tok5; tok5] "atom".
Proof.
  assert (h1 : sl_array slice_two ∈ dom heap_two)
    by (apply elem_of_dom; eexists; reflexivity).
  assert (h2 : SendTransfer heap_two "transfer" "channel-0" slice_two "alice" s_alice
               = Ok tt s_sent) by vm_refl.
  split; [exact h1|split; [exact h2|]].
  exact (SendTransfer_escrow_delta heap_two "transfer" "channel-0" slice_two "alice"
           s_alice s_sent h1 h2 "atom").
Defined.

Lemma refund_escrow_delta_witness :
  OnAcknowledgementPacket "transfer" "channel-0" data_two (Acknowledgement_Error "rejected")
    s_sent = Ok tt s_refunded /\
  EscrowTotal s_refunded "atom" =
    EscrowTotal s_sent "atom" - escrowDelta "transfer" "channel-0" [tok5; tok5] "atom".
Proof.
  assert (h1 : OnAcknowledgementPacket "transfer" "channel-0" data_two
                 (Acknowledgement_Error "rejected") s_sent = Ok tt s_refunded)
    by vm_refl.
  split; [exact h1|].
  exact (refund_escrow_delta "transfer" "channel-0" data_two s_sent s_refunded
           (or_intror (ex_intro _ _ h1)) "atom").
Defined.

Lemma send_then_refund_restores_escrow_witness :
  sl_array slice_two ∈ dom heap_two /\
  Tokens data_two = sliceElems heap_two slice_two /\
  SendTransfer heap_two "transfer" "channel-0" slice_two "alice" s_alice = Ok tt s_sent /\
  OnTimeoutPacket "transfer" "channel-0" data_two s_sent = Ok tt s_refunded /\
  EscrowTotal s_refunded "atom" = EscrowTotal s_alice "atom".
Proof.
  assert (h1 : sl_array slice_two ∈ dom heap_two)
    by (apply elem_of_dom; eexists; reflexivity).
  assert (h2 : Tokens data_two = sliceElems heap_two slice_two) by reflexivity.
  assert (h3 : SendTransfer heap_two "transfer" "channel-0" slice_two "alice" s_alice
               = Ok tt s_sent) by vm_refl.
  assert (h4 : OnTimeoutPacket "transfer" "channel-0" data_two s_sent = Ok tt s_refunded)
    by vm_refl.
  split; [exact h1|split; [exact h2|split; [exact h3|split; [exact h4|]]]].
  exact (send_then_refund_restores_escrow heap_two "transfer" "channel-0" slice_two "alice"
           data_two s_alice s_sent s_refunded h1 h2 h3 (or_introl h4) "atom").
Defined.

Lemma OnRecvPacket_received_coins_witness :
  recv_result = Ok cs_recvd s_recvd /\
  cs_recvd = map (recvCoin "transfer" "channel-0" "transfer" "channel-1") [tok5; back3].
Proof.
  assert (h1 : OnRecvPacket data_recv "transfer" "channel-0" "transfer" "channel-1" s_recv
               = Ok cs_recvd s_recvd) by vm_refl.
  split; [exact h1|].
  exact (OnRecvPacket_received_coins data_recv "transfer" "channel-0" "transfer" "channel-1"
           s_recv cs_recvd s_recvd h1).
Defined.

Lemma OnRecvPacket_escrow_delta_witness :
  recv_result = Ok cs_recvd s_recvd /\
  EscrowTotal s_recvd "atom" =
    EscrowTotal s_recv "atom" - unescrowDelta "transfer" "channel-0" [tok5; back3] "atom".
Proof.
  assert (h1 : OnRecvPacket data_recv "transfer" "channel-0" "transfer" "channel-1" s_recv
               = Ok cs_recvd s_recvd) by vm_refl.
  split; [exact h1|].
  exact (OnRecvPacket_escrow_delta data_recv "transfer" "channel-0" "transfer" "channel-1"
           s_recv cs_recvd s_recvd h1 "atom").
Defined.

Lemma OnRecvPacket_registers_vouchers_witness :
  recv_result = Ok cs_recvd s_recvd /\
  HasPrefix (token_denom tok5) "transfer" "channel-0" = false /\
  is_Some (denoms s_recvd !! DenomHash (voucherDenom "transfer" "channel-1" tok5)).
Proof.
  assert (h1 : OnRecvPacket data_recv "transfer" "channel-0" "transfer" "channel-1" s_recv
               = Ok cs_recvd s_recvd) by vm_refl.
  assert (h2 : tok5 ∈ Tokens data_recv) by (left).
  assert (h3 : HasPrefix (token_denom tok5) "transfer" "channel-0" = false) by reflexivity.
  split; [exact h1|split; [exact h3|]].
  exact (OnRecvPacket_registers_vouchers data_recv "transfer" "channel-0" "transfer" "channel-1"
           s_recv cs_recvd s_recvd tok5 h1 h2 h3).
Defined.

Lemma received_voucher_resolves_witness :
  registryOk s_recv /\
  recv_result = Ok cs_recvd s_recvd /\
  HasPrefix (token_denom tok5) "transfer" "channel-0" = false /\
  exists t', TokenFromCoin parseHex (denoms s_recvd)
               (recvCoin "transfer" "channel-0" "transfer" "channel-1" tok5) = inr t'.
Proof.
  assert (h1 : OnRecvPacket data_recv "transfer" "channel-0" "transfer" "channel-1" s_recv
               = Ok cs_recvd s_recvd) by vm_refl.
  assert (h2 : tok5 ∈ Tokens data_recv) by (left).
  assert (h3 : HasPrefix (token_denom tok5) "transfer" "channel-0" = false) by reflexivity.
  split; [exact s_recv_registryOk|split; [exact h1|split; [exact h3|]]].
  destruct (received_voucher_resolves parseHex data_recv "transfer" "channel-0" "transfer"
              "channel-1" s_recv cs_recvd s_recvd tok5 s_recv_registryOk
              (fun d => parseHex_traced d) h1 h2 h3) as [t' [Ht _]].
  exists t'. exact Ht.
Defined.

End PropertyWitnesses.
